(** * Kinzy: the game generation and retrieval endpoints of [main.py]

    A shallow embedding of the two request handlers of the FastAPI backend,
    [generate_game] and [get_game], together with the pieces of the Python
    runtime they call ([str.strip], [str.startswith], slicing, [uuid.UUID],
    [uuid.uuid4], [Path.write_text], [Path.read_text]).

    Modelling conventions.
    - A Python [str] is the list of its Unicode code points ([list N]); a
      surrogate code point in it is a lone surrogate, which UTF-8 cannot
      encode.
    - The games directory is a finite map from file name to the text the
      file holds; the file's bytes are the UTF-8 encoding of that text after
      the newline translation of text mode, and [read_text] sees the decoded
      bytes after universal-newline translation.  File names are compared
      exactly.
    - Two failures of the directory are modelled, both decided by the
      arguments of the call: [write_text] creates or truncates the file and
      then fails to encode a text with a lone surrogate, leaving the file
      empty; [exists] (pathlib before Python 3.13) lets the error of a file
      name longer than [NAME_MAX] bytes through.  A disk that is full,
      read-only or broken is not modelled.
    - The parts of the runtime that are tables of the interpreter or depend
      on the installed packages and the host ([str.lower], the decimal
      digits of Unicode, [str] of an exception, [os.linesep]) are the fields
      of a [Runtime] the handlers take as an argument.
    - Everything outside the process (the generation client, the entropy
      behind [uuid4]) is an argument of the handler that uses it; every
      interaction with the generation client and with the directory is
      recorded in a trace.
    - Exceptions are values: a handler returns [Return v] or [Raise e];
      [Interrupt] stands for the exceptions that are no [Exception]
      ([KeyboardInterrupt], [SystemExit], [asyncio.CancelledError]). *)

From Stdlib Require Import NArith Ascii String DecimalString.
From stdpp Require Import base list gmap.

Abbreviation str := (list N).

(** ** Text primitives *)

(** A string literal of the source, as code points. *)
Definition lit (s : string) : str :=
  map N_of_ascii (list_ascii_of_string s).

(** [s.startswith(p)] *)
Fixpoint startswith (p s : str) : bool :=
  match p, s with
  | [], _ => true
  | _ :: _, [] => false
  | a :: p', b :: s' => (a =? b)%N && startswith p' s'
  end.

(** [s.endswith(p)] *)
Definition endswith (p s : str) : bool := startswith (rev p) (rev s).

(** [s[n:]] for [n >= 0] *)
Definition slice_from (n : nat) (s : str) : str := drop n s.

(** [s[:-n]] for [n > 0]: all but the last [n] code points. *)
Definition slice_to_neg (n : nat) (s : str) : str := take (length s - n) s.

(** [Py_UNICODE_ISSPACE]: the code points [str.strip()] removes. *)
Definition isspace (c : N) : bool :=
  ((9 <=? c) && (c <=? 13) || (28 <=? c) && (c <=? 32)
   || (c =? 133) || (c =? 160) || (c =? 5760)
   || (8192 <=? c) && (c <=? 8202)
   || (c =? 8232) || (c =? 8233) || (c =? 8239) || (c =? 8287)
   || (c =? 12288))%N.

(** Stripping with respect to a class of code points, from the left, from
    the right, and from both ends. *)
Fixpoint lstrip_by (f : N -> bool) (s : str) : str :=
  match s with
  | [] => []
  | c :: s' => if f c then lstrip_by f s' else s
  end.

Fixpoint rstrip_by (f : N -> bool) (s : str) : str :=
  match s with
  | [] => []
  | c :: s' =>
      match rstrip_by f s' with
      | [] => if f c then [] else [c]
      | r => c :: r
      end
  end.

Definition strip_by (f : N -> bool) (s : str) : str :=
  rstrip_by f (lstrip_by f s).

(** [s.strip()] *)
Definition strip (s : str) : str := strip_by isspace s.

(** [s.strip(chars)] *)
Definition strip_chars (chars s : str) : str :=
  strip_by (fun c => existsb (N.eqb c) chars) s.

(** [s.replace(old, '')] for a non-empty [old]: every non-overlapping
    occurrence, scanning from the left, is deleted.  [skip] counts the code
    points of the current occurrence still to pass over. *)
Fixpoint delete_from (old : str) (skip : nat) (s : str) : str :=
  match s with
  | [] => []
  | c :: s' =>
      match skip with
      | S k => delete_from old k s'
      | O => if startswith old s
             then delete_from old (length old - 1) s'
             else c :: delete_from old 0 s'
      end
  end.

Definition replace_empty (old s : str) : str := delete_from old 0 s.

(** ** The fence markers and the clean-up of [generate_game] *)

Definition fence_html : str := lit "```html".
Definition fence : str := lit "```".
Definition doctype : str := lit "<!doctype html".

(** Lines 106-115 of [main.py]: the value of [html_content] computed from
    [response.text]. *)
Definition html_content (response_text : str) : str :=
  let h0 := strip response_text in
  let h1 := if startswith fence_html h0 then slice_from 7 h0 else h0 in
  let h2 := if startswith fence h1 then slice_from 3 h1 else h1 in
  let h3 := if endswith fence h2 then slice_to_neg 3 h2 else h2 in
  strip h3.

(** The clean-up as the specification words it: the bare marker is looked
    for only when the labelled one was not found. *)
Definition html_content_spec (response_text : str) : str :=
  let h0 := strip response_text in
  let h1 := if startswith fence_html h0 then slice_from 7 h0
            else if startswith fence h0 then slice_from 3 h0
            else h0 in
  let h3 := if endswith fence h1 then slice_to_neg 3 h1 else h1 in
  strip h3.

(** ** [uuid.UUID] and [uuid.uuid4] *)

(** [Py_ISSPACE]: the ASCII white space [PyLong_FromString] skips. *)
Definition Py_ISSPACE (c : N) : bool :=
  ((9 <=? c) && (c <=? 13) || (c =? 32))%N.

(** [_PyLong_DigitValue]: 37 for a code point that is no digit in any base. *)
Definition digit_value (c : N) : N :=
  (if (48 <=? c) && (c <=? 57) then c - 48
   else if (97 <=? c) && (c <=? 122) then c - 87
   else if (65 <=? c) && (c <=? 90) then c - 55
   else 37)%N.

(** The scan of [long_from_binary_base] for base 16: digits and single
    underscores between them.  [None] is the syntax error (two underscores
    in a row, or a trailing one); otherwise the value read and the rest. *)
Fixpoint scan_hex (s : str) (prev_underscore : bool) (acc : N)
  : option (N * str) :=
  match s with
  | c :: s' =>
      if (digit_value c <? 16)%N
      then scan_hex s' false (acc * 16 + digit_value c)%N
      else if (c =? 95)%N
           then if prev_underscore then None else scan_hex s' true acc
           else if prev_underscore then None else Some (acc, s)
  | [] => if prev_underscore then None else Some (acc, s)
  end.

(** [PyLong_FromString(s, 16)] on the ASCII rendering of the text: leading
    white space, a sign, an optional [0x] prefix (one underscore allowed
    after it), the digits, trailing white space, and nothing else. *)
Definition PyLong_FromString (s : str) : option Z :=
  let s := lstrip_by Py_ISSPACE s in
  let '(sign, s) :=
    match s with
    | c :: r =>
        if (c =? 43)%N then (1%Z, r)
        else if (c =? 45)%N then ((-1)%Z, r)
        else (1%Z, s)
    | [] => (1%Z, s)
    end in
  let s :=
    match s with
    | c :: x :: r =>
        if (c =? 48)%N && ((x =? 120) || (x =? 88))%N
        then match r with
             | u :: r' => if (u =? 95)%N then r' else r
             | [] => r
             end
        else s
    | _ => s
    end in
  if startswith [95%N] s then None
  else
    match scan_hex s false 0 with
    | None => None
    | Some (v, rest) =>
        if (length rest =? length s)%nat then None
        else match lstrip_by Py_ISSPACE rest with
             | [] => Some (sign * Z.of_N v)%Z
             | _ :: _ => None
             end
    end.

Section Int.

(** [Py_UNICODE_TODECIMAL]: the decimal value of a code point of category
    Nd, from the Unicode database of the interpreter. *)
Variable todecimal : N -> option N.

(** [_PyUnicode_TransformDecimalAndSpaceToASCII]: Unicode white space
    becomes a space, a Unicode decimal digit its ASCII digit, and the
    first other non-ASCII code point a question mark that ends the text. *)
Fixpoint transform_decimal_and_space (s : str) : str :=
  match s with
  | [] => []
  | ch :: s' =>
      if (ch <? 127)%N then ch :: transform_decimal_and_space s'
      else if isspace ch then 32%N :: transform_decimal_and_space s'
      else match todecimal ch with
           | Some d => (48 + d)%N :: transform_decimal_and_space s'
           | None => [63%N]
           end
  end.

(** [int(s, 16)] for a [str]; [None] is [ValueError]. *)
Definition int16 (s : str) : option Z :=
  PyLong_FromString
    (if forallb (fun ch => (ch <? 128)%N) s then s
     else transform_decimal_and_space s).

(** [uuid.UUID(hex)]; [None] is [ValueError], otherwise the 128-bit
    value of the identifier. *)
Definition uuid_UUID (hex : str) : option N :=
  let hex := replace_empty (lit "uuid:") (replace_empty (lit "urn:") hex) in
  let hex := replace_empty (lit "-") (strip_chars (lit "{}") hex) in
  if negb (length hex =? 32)%nat then None
  else match int16 hex with
       | None => None
       | Some i =>
           if ((0 <=? i) && (i <? 2 ^ 128))%Z then Some (Z.to_N i) else None
       end.

End Int.

(** A lower-case hexadecimal digit. *)
Definition hexchar (d : N) : N := (if d <? 10 then 48 + d else 87 + d)%N.

(** ['%0kx' % n] for [n < 16 ^ k]. *)
Fixpoint hex_digits (k : nat) (n : N) : str :=
  match k with
  | O => []
  | S k' => hex_digits k' (n / 16)%N ++ [hexchar (n mod 16)%N]
  end.

(** [str(UUID(int=n))]: 32 digits in groups of 8, 4, 4, 4 and 12. *)
Definition UUID_str (n : N) : str :=
  let hex := hex_digits 32 n in
  take 8 hex ++ lit "-" ++ take 4 (drop 8 hex) ++ lit "-"
    ++ take 4 (drop 12 hex) ++ lit "-" ++ take 4 (drop 16 hex) ++ lit "-"
    ++ drop 20 hex.

(** The value of [uuid.uuid4()] when [os.urandom(16)] yields the bytes of
    [entropy]: the variant bits are set to RFC 4122 and the version to 4. *)
Definition uuid4 (entropy : N) : N :=
  let int := (entropy mod 2 ^ 128)%N in
  let int := N.ldiff int (N.shiftl 49152 48) in
  let int := N.lor int (N.shiftl 32768 48) in
  let int := N.ldiff int (N.shiftl 61440 64) in
  N.lor int (N.shiftl 4 76).

(** ** Text-mode files *)

(** The host: [os.linesep] is a line feed on POSIX and carriage return,
    line feed on Windows. *)
Inductive os_name := posix | nt.

(** Writing in text mode with [newline=None]: every line feed becomes
    [os.linesep]. *)
Fixpoint newline_out (os : os_name) (data : str) : str :=
  match data with
  | [] => []
  | c :: data' =>
      if (c =? 10)%N
      then match os with
           | posix => [10%N]
           | nt => [13%N; 10%N]
           end ++ newline_out os data'
      else c :: newline_out os data'
  end.

(** Reading in text mode with [newline=None] (universal newlines): a
    carriage return, with the line feed that follows it if any, is read as
    one line feed. *)
Fixpoint universal_newlines (s : str) : str :=
  match s with
  | [] => []
  | c :: s' =>
      if (c =? 13)%N
      then 10%N :: match s' with
                   | [] => []
                   | d :: s'' =>
                       if (d =? 10)%N then universal_newlines s''
                       else universal_newlines s'
                   end
      else c :: universal_newlines s'
  end.

(** ** Exceptions, the world, and the monad of the handlers *)

Inductive exn :=
| HTTPException (status_code : N) (detail : str)
| RequestValidationError
| OtherException (text : str)
| UnicodeEncodeError (object : str)
| OSError (filename : str)
| Interrupt (text : str).

(** [isinstance(e, Exception)] *)
Definition is_Exception (e : exn) : bool :=
  match e with
  | Interrupt _ => false
  | _ => true
  end.

Inductive result (A : Type) :=
| Return (a : A)
| Raise (e : exn).
Arguments Return {A} a.
Arguments Raise {A} e.

(** What the process does to the outside. *)
Inductive event :=
| Generate (instruction : str)
| Exists (name : str)
| WriteText (name data : str)
| ReadText (name : str).

Record World := mkWorld {
  files : gmap str str;
  trace : list event
}.

Definition emit (e : event) (w : World) : World :=
  mkWorld (files w) (trace w ++ [e]).

Definition M (A : Type) : Type := World -> result A * World.

Definition ret {A} (a : A) : M A := fun w => (Return a, w).
Definition raise {A} (e : exn) : M A := fun w => (Raise e, w).
Definition bind {A B} (m : M A) (k : A -> M B) : M B :=
  fun w => match m w with
           | (Return a, w') => k a w'
           | (Raise e, w') => (Raise e, w')
           end.

(** [try: m  except Exception as e: h e]; what is no [Exception] is not
    caught. *)
Definition try_except {A} (m : M A) (h : exn -> M A) : M A :=
  fun w => match m w with
           | (Return a, w') => (Return a, w')
           | (Raise e, w') => if is_Exception e then h e w' else (Raise e, w')
           end.

Notation "'do' x <- m ;; k" := (bind m (fun x => k))
  (at level 10, x name, m at level 99, k at level 200, only parsing).

(** The bytes of a code point, and of a text, in UTF-8. *)
Definition utf8_width (c : N) : nat :=
  if (c <? 128)%N then 1
  else if (c <? 2048)%N then 2
  else if (c <? 65536)%N then 3
  else 4.

Definition utf8_size (s : str) : nat :=
  fold_right (fun c n => utf8_width c + n) 0 s.

(** The longest file name of the file system, in bytes. *)
Definition NAME_MAX : nat := 255.

Definition fits_NAME_MAX (name : str) : bool :=
  (utf8_size name <=? NAME_MAX)%nat.

(** A code point UTF-8 encodes: a Unicode scalar value, not a surrogate. *)
Definition encodable (c : N) : bool :=
  ((c <? 55296) || (57344 <=? c) && (c <=? 1114111))%N.

(** [path.exists()], pathlib before Python 3.13: the [OSError] of [stat] is
    swallowed when it says that the file is not there and raised again
    otherwise, as for a name longer than [NAME_MAX]. *)
Definition path_exists (name : str) : M bool :=
  fun w => (if fits_NAME_MAX name
            then Return (bool_decide (is_Some (files w !! name)))
            else Raise (OSError name),
            emit (Exists name) w).

(** [path.write_text(data, encoding='utf-8')]: the file is opened for
    writing, which creates or truncates it, and then the text is encoded and
    written; a text that cannot be encoded leaves the file empty. *)
Definition write_text (name data : str) : M unit :=
  fun w => if forallb encodable data
           then (Return tt, mkWorld (<[name := data]> (files w))
                                    (trace w ++ [WriteText name data]))
           else (Raise (UnicodeEncodeError data),
                 mkWorld (<[name := []]> (files w))
                         (trace w ++ [WriteText name data])).

(** ** The request and response models *)

Record GameRequest := mkGameRequest { prompt : str }.

Record GameResponse := mkGameResponse {
  game_id : str;
  message : str;
  play_url : str
}.

(** Construction of a [GameRequest] from the request body:
    [Field(..., min_length=10, max_length=1000)]. *)
Definition GameRequest_validate (body_prompt : str) : option GameRequest :=
  if (10 <=? length body_prompt)%nat && (length body_prompt <=? 1000)%nat
  then Some (mkGameRequest body_prompt)
  else None.

(** ** The runtime *)

(** What the handlers take from the interpreter, the installed packages and
    the host. *)
Record Runtime := mkRuntime {
  (** [str.lower], the full Unicode case mapping of the interpreter *)
  str_lower : str -> str;
  (** [Py_UNICODE_TODECIMAL] of the interpreter *)
  unicode_todecimal : N -> option N;
  (** [str(e)] for an [HTTPException] of the installed Starlette *)
  HTTPException_str : N -> str -> str;
  (** the host the server runs on *)
  host : os_name;
  (** [str(e)] for the [UnicodeEncodeError] of a text *)
  UnicodeEncodeError_str : str -> str;
  (** [str(e)] for the [OSError] of a file name *)
  OSError_str : str -> str
}.

Section Runtime.

Variable rt : Runtime.

(** [str(e)].  A validation error is raised by the framework before the
    handler runs and is never caught by the handler; its text plays no
    part. *)
Definition str_exn (e : exn) : str :=
  match e with
  | HTTPException status_code detail =>
      HTTPException_str rt status_code detail
  | RequestValidationError => lit "validation error"
  | OtherException text => text
  | UnicodeEncodeError object => UnicodeEncodeError_str rt object
  | OSError filename => OSError_str rt filename
  | Interrupt text => text
  end.

(** [path.read_text(encoding='utf-8')] *)
Definition read_text (name : str) : M str :=
  fun w => (match files w !! name with
            | Some data =>
                Return (universal_newlines (newline_out (host rt) data))
            | None => Raise (OtherException (lit "No such file or directory"))
            end, emit (ReadText name) w).

(** *** The generation client *)

(** [model.generate_content(instruction, ...).text]: the client either
    yields text or raises. *)
Definition generate_content (gemini : str -> exn + str) (instruction : str)
  : M str :=
  fun w => (match gemini instruction with
            | inr text => Return text
            | inl e => Raise e
            end, emit (Generate instruction) w).

(** The check of line 118. *)
Definition valid_html (html : str) : bool :=
  startswith doctype (str_lower rt html).

(** *** [generate_game] *)

Definition generate_game (gemini : str -> exn + str) (entropy : N)
    (request : GameRequest) : M GameResponse :=
  try_except
    (do response_text <-
       generate_content gemini
         (lit "Create an educational game: " ++ prompt request) ;;
     let html := html_content response_text in
     if negb (valid_html html)
     then raise (HTTPException 500 (lit "Generated content is not valid HTML"))
     else
       let game_id := UUID_str (uuid4 entropy) in
       let game_path := game_id ++ lit ".html" in
       do _ <- write_text game_path html ;;
       ret (mkGameResponse game_id (lit "Game generated successfully!")
              (lit "/api/game/" ++ game_id)))
    (fun e =>
       raise (HTTPException 500
                (lit "Failed to generate game: " ++ str_exn e))).

(** [POST /api/generate]: the body is validated into a [GameRequest]
    before the handler runs. *)
Definition post_api_generate (gemini : str -> exn + str) (entropy : N)
    (body_prompt : str) : M GameResponse :=
  match GameRequest_validate body_prompt with
  | None => raise RequestValidationError
  | Some request => generate_game gemini entropy request
  end.

(** *** [get_game] *)

Definition get_game (game_id : str) : M str :=
  match uuid_UUID (unicode_todecimal rt) game_id with
  | None => raise (HTTPException 400 (lit "Invalid game ID format"))
  | Some _ =>
      let game_path := game_id ++ lit ".html" in
      do present <- path_exists game_path ;;
      if negb present
      then raise (HTTPException 404 (lit "Game not found"))
      else
        do content <- read_text game_path ;;
        ret content
  end.

(** *** Sequences of requests *)

Inductive http_request :=
| PostGenerate (gemini : str -> exn + str) (entropy : N) (body_prompt : str)
| GetGame (game_id : str).

Definition serve (r : http_request) (w : World) : World :=
  match r with
  | PostGenerate gemini entropy body_prompt =>
      snd (post_api_generate gemini entropy body_prompt w)
  | GetGame game_id => snd (get_game game_id w)
  end.

Definition serve_all (rs : list http_request) (w : World) : World :=
  fold_left (fun w r => serve r w) rs w.

Definition empty_world : World := mkWorld ∅ [].

End Runtime.

(** The store invariant: every file of the games directory is named after
    an identifier [uuid4] can issue and holds a document that passes the
    check of line 118. *)
Definition store_ok (rt : Runtime) (w : World) : Prop :=
  forall name doc,
    files w !! name = Some doc ->
    valid_html rt doc = true
    /\ exists entropy, name = UUID_str (uuid4 entropy) ++ lit ".html".

(** The instruction sent for a request, and the exception the [except]
    clause of [generate_game] raises for a caught one. *)
Definition instruction_of (request : GameRequest) : str :=
  lit "Create an educational game: " ++ prompt request.

Definition wrapped (rt : Runtime) (e : exn) : exn :=
  HTTPException 500 (lit "Failed to generate game: " ++ str_exn rt e).

(** *** A reference runtime

    The Unicode tables cut down to U+0000-U+00FF, the [__str__] of current
    Starlette ([f"{status_code}: {detail}"]), a POSIX host, and the texts of
    the interpreter's own errors cut down to their fixed part. *)

Definition latin1_lower (s : str) : str :=
  map (fun c => if ((65 <=? c) && (c <=? 90)
                    || (192 <=? c) && (c <=? 222) && negb (c =? 215))%N
                then (c + 32)%N else c) s.

Definition latin1_todecimal (c : N) : option N :=
  if ((48 <=? c) && (c <=? 57))%N then Some (c - 48)%N else None.

Definition starlette_str (status_code : N) (detail : str) : str :=
  lit (NilEmpty.string_of_uint (N.to_uint status_code)) ++ lit ": " ++ detail.

Definition reference_runtime : Runtime :=
  mkRuntime latin1_lower latin1_todecimal starlette_str posix
    (fun _ => lit "'utf-8' codec can't encode character: surrogates not allowed")
    (fun filename => lit "[Errno 36] File name too long: " ++ filename).

(** *** Vocabulary of the statements *)

(** A lower-case hexadecimal digit, as [hexchar] writes them. *)
Definition is_hex (c : N) : bool :=
  ((48 <=? c) && (c <=? 57) || (97 <=? c) && (c <=? 102))%N.

(** The code points of a canonical identifier: digits and the hyphen. *)
Definition is_uuid_char (c : N) : bool := is_hex c || (c =? 45)%N.

(** The value [scan_hex] has accumulated after the digits of [l]. *)
Definition hex_value (acc : N) (l : str) : N :=
  fold_left (fun a c => a * 16 + digit_value c)%N l acc.

(** Inputs for the examples. *)
Definition a_prompt : str := lit "a counting game".

Definition a_document : str := lit "<!DOCTYPE html><html></html>".

Definition fenced_document : str :=
  lit "```html" ++ [10%N] ++ a_document ++ [10%N] ++ lit "```".

(** *** The rest of [main.py] and further vocabulary *)

(** Text made of white space only. *)
Definition all_space (ws : str) : Prop := Forall (fun c => isspace c = true) ws.

(** A request to [POST /api/generate]. *)
Definition is_post (r : http_request) : bool :=
  match r with
  | PostGenerate _ _ _ => true
  | GetGame _ => false
  end.

(** A request to [POST /api/generate] whose body passes validation. *)
Definition accepted (r : http_request) : bool :=
  match r with
  | PostGenerate _ _ body_prompt =>
      match GameRequest_validate body_prompt with
      | Some _ => true
      | None => false
      end
  | GetGame _ => false
  end.

(** The calls to the generation client in a trace. *)
Fixpoint generation_calls (t : list event) : nat :=
  match t with
  | [] => 0
  | Generate _ :: t' => S (generation_calls t')
  | _ :: t' => generation_calls t'
  end.

(** What [get_game] hands out for a stored document. *)
Definition as_read (rt : Runtime) (doc : str) : str :=
  universal_newlines (newline_out (host rt) doc).

(** The ASCII code points [PyLong_FromString] can pass over in base 16:
    white space, a sign, the [0x] prefix, an underscore, a digit. *)
Definition int_char (c : N) : bool :=
  Py_ISSPACE c || (c =? 43)%N || (c =? 45)%N || (c =? 120)%N || (c =? 88)%N
  || (c =? 95)%N || (digit_value c <? 16)%N.

(** The ASCII code points an identifier accepted by [uuid.UUID] can hold:
    those of the integer, and those [uuid.UUID] removes before reading it. *)
Definition id_char (c : N) : bool :=
  int_char c || existsb (N.eqb c) (lit "urn:uuid:{}-").

(** More inputs for the examples: a client that answers with the fenced
    document, one that fails, and the world after one generation. *)
Definition fenced_client : str -> exn + str := fun _ => inr fenced_document.

Definition failing_client : str -> exn + str :=
  fun _ => inl (OtherException (lit "quota exceeded")).

Definition one_game : World :=
  serve_all reference_runtime [PostGenerate fenced_client 77 a_prompt]
    empty_world.

(** Names as [generate_game] gives them: an identifier [uuid4] can issue,
    followed by [.html]. *)
Definition names_ok (w : World) : Prop :=
  forall name doc,
    files w !! name = Some doc ->
    exists entropy, name = UUID_str (uuid4 entropy) ++ lit ".html".

(** A client whose texts UTF-8 can encode, as the texts of the real client
    are, and a request made with such a client. *)
Definition client_encodable (gemini : str -> exn + str) : Prop :=
  forall instruction text,
    gemini instruction = inr text -> Forall (fun c => encodable c = true) text.

Definition request_encodable (r : http_request) : Prop :=
  match r with
  | PostGenerate gemini _ _ => client_encodable gemini
  | GetGame _ => True
  end.

(** Inputs for the examples of the two failures of the directory: a
    document that ends in a lone surrogate, and identifiers made longer
    than [NAME_MAX] by hyphens, which [uuid.UUID] removes. *)
Definition surrogate_document : str := lit "<!DOCTYPE html>" ++ [55296%N].

Definition surrogate_client : str -> exn + str :=
  fun _ => inr surrogate_document.

Definition long_unknown_id : str :=
  repeat 45%N 300 ++ lit "12345678123456781234567812345678".


(** * Properties *)

(** ** Stripping and prefixes *)

Lemma startswith_app (p q s : str) :
  startswith (p ++ q) s = startswith p s && startswith q (drop (length p) s).
Proof.
  revert s; induction p as [|a p IH]; intros s.
  - reflexivity.
  - destruct s as [|b s]; simpl; [reflexivity|].
    rewrite IH. by destruct (a =? b)%N.
Qed.

Lemma lstrip_by_head f (s : str) :
  lstrip_by f s = [] \/ exists c r, lstrip_by f s = c :: r /\ f c = false.
Proof.
  induction s as [|c s IH]; simpl; [by left|].
  destruct (f c) eqn:E; [exact IH|]. right; eauto.
Qed.

Lemma lstrip_by_fixed f c (r : str) : f c = false -> lstrip_by f (c :: r) = c :: r.
Proof. intros E; simpl; by rewrite E. Qed.

Lemma rstrip_by_idem f (s : str) : rstrip_by f (rstrip_by f s) = rstrip_by f s.
Proof.
  induction s as [|c s IH]; simpl; [reflexivity|].
  destruct (rstrip_by f s) as [|d r] eqn:E.
  - destruct (f c) eqn:Ec; simpl; [reflexivity | by rewrite Ec].
  - change (rstrip_by f (c :: d :: r)) with
      (match rstrip_by f (d :: r) with
       | [] => if f c then [] else [c]
       | x => c :: x
       end).
    by rewrite IH.
Qed.

Lemma rstrip_by_head f c (r : str) :
  f c = false -> exists r', rstrip_by f (c :: r) = c :: r'.
Proof.
  intros E; simpl. destruct (rstrip_by f r); [rewrite E|]; eauto.
Qed.

Lemma strip_by_idem f (s : str) : strip_by f (strip_by f s) = strip_by f s.
Proof.
  unfold strip_by.
  destruct (lstrip_by_head f s) as [-> | (c & r & -> & Hc)]; [reflexivity|].
  destruct (rstrip_by_head f c r Hc) as [r' E].
  rewrite E, (lstrip_by_fixed f c r' Hc), <- E. apply rstrip_by_idem.
Qed.

Lemma strip_idem (s : str) : strip (strip s) = strip s.
Proof. apply strip_by_idem. Qed.

(** ** The clean-up of the generated text *)

(** C9. Text that, once trimmed, neither starts with one of the two fence
    markers nor ends with the bare one comes out of the clean-up as the
    trimmed text, and cleaning it a second time changes nothing. *)
Theorem html_content_fence_free (raw : str) :
  startswith fence_html (strip raw) = false ->
  startswith fence (strip raw) = false ->
  endswith fence (strip raw) = false ->
  html_content raw = strip raw
  /\ html_content (html_content raw) = html_content raw.
Proof.
  intros H7 H3 He.
  assert (Hclean : forall t, strip t = strip raw -> html_content t = strip raw).
  { intros t Ht. unfold html_content. rewrite Ht, H7, H3, He. apply strip_idem. }
  split.
  - by apply Hclean.
  - rewrite (Hclean raw eq_refl). apply Hclean, strip_idem.
Qed.

Lemma html_content_fence_free_witness :
  let raw := 32%N :: 10%N :: lit "<!DOCTYPE html><html></html>" ++ [10%N] in
  html_content raw = lit "<!DOCTYPE html><html></html>"
  /\ html_content (html_content raw) = html_content raw.
Proof.
  apply (html_content_fence_free
           (32%N :: 10%N :: lit "<!DOCTYPE html><html></html>" ++ [10%N]));
    reflexivity.
Defined.

(** C2, as stated, fails: on text that opens with the labelled marker
    directly followed by the bare one, the source removes both, while the
    either-or reading removes the labelled marker alone. *)
Lemma html_content_strips_both_markers :
  html_content (lit "```html```<!doctype html>") = lit "<!doctype html>"
  /\ html_content_spec (lit "```html```<!doctype html>")
     = lit "```<!doctype html>"
  /\ html_content (lit "```html```<!doctype html>")
     <> html_content_spec (lit "```html```<!doctype html>").
Proof. repeat split; try reflexivity. discriminate. Qed.

(** C2, amended. After trimming, the labelled marker is removed if the text
    starts with it; then, whether or not that happened, the bare marker is
    removed if what is left starts with it; a trailing bare marker is then
    removed and the text trimmed again.  So the source agrees with the
    either-or reading except on text opening with both markers in a row,
    where all ten code points go. *)
Theorem html_content_opening_markers (raw : str) :
  html_content raw =
    if startswith (fence_html ++ fence) (strip raw)
    then let h := slice_from 10 (strip raw) in
         strip (if endswith fence h then slice_to_neg 3 h else h)
    else html_content_spec raw.
Proof.
  unfold html_content, html_content_spec.
  rewrite startswith_app. change (length fence_html) with 7%nat.
  unfold slice_from.
  destruct (startswith fence_html (strip raw)) eqn:H7.
  - rewrite andb_true_l.
    destruct (startswith fence (drop 7 (strip raw))) eqn:H3; [|reflexivity].
    cbv zeta. by rewrite drop_drop.
  - by rewrite andb_false_l.
Qed.

(** ** Identifiers: formatting and parsing *)

Ltac char_cases :=
  unfold is_uuid_char, is_hex, hexchar, digit_value, Py_ISSPACE in *;
  repeat match goal with
    | H : context [(?a <=? ?b)%N] |- _ => destruct (N.leb_spec a b); simpl in H
    | H : context [(?a <? ?b)%N] |- _ => destruct (N.ltb_spec a b); simpl in H
    | H : context [(?a =? ?b)%N] |- _ => destruct (N.eqb_spec a b); simpl in H
    | |- context [(?a <=? ?b)%N] => destruct (N.leb_spec a b); simpl
    | |- context [(?a <? ?b)%N] => destruct (N.ltb_spec a b); simpl
    | |- context [(?a =? ?b)%N] => destruct (N.eqb_spec a b); simpl
    end;
  try discriminate; try reflexivity; try lia.

Lemma hexchar_is_hex d : (d < 16)%N -> is_hex (hexchar d) = true.
Proof. intros; char_cases. Qed.

Lemma digit_value_hexchar d : (d < 16)%N -> digit_value (hexchar d) = d.
Proof. intros; char_cases. Qed.

Lemma is_hex_digit c : is_hex c = true -> (digit_value c <? 16)%N = true.
Proof. intros; char_cases. Qed.

Lemma is_hex_uuid_char c : is_hex c = true -> is_uuid_char c = true.
Proof. unfold is_uuid_char; intros ->; reflexivity. Qed.

Lemma hex_digits_length k n : length (hex_digits k n) = k.
Proof.
  revert n; induction k as [|k IH]; intros n; simpl; [reflexivity|].
  rewrite length_app, IH; simpl; lia.
Qed.

Lemma hex_digits_is_hex k n : Forall (fun c => is_hex c = true) (hex_digits k n).
Proof.
  revert n; induction k as [|k IH]; intros n; simpl; [constructor|].
  apply Forall_app; split; [apply IH|].
  repeat constructor. apply hexchar_is_hex, N.mod_lt; discriminate.
Qed.

Lemma scan_hex_app (l r : str) acc :
  Forall (fun c => is_hex c = true) l ->
  scan_hex (l ++ r) false acc = scan_hex r false (hex_value acc l).
Proof.
  intros H; revert acc; induction H as [|c l Hc _ IH]; intros acc; simpl;
    [reflexivity|].
  by rewrite (is_hex_digit c Hc), IH.
Qed.

Lemma hex_value_digits k n acc :
  hex_value acc (hex_digits k n)
  = (acc * 16 ^ N.of_nat k + n mod 16 ^ N.of_nat k)%N.
Proof.
  revert n acc; induction k as [|k IH]; intros n acc.
  - simpl. rewrite N.mod_1_r. lia.
  - simpl hex_digits. unfold hex_value in *. rewrite fold_left_app, IH. simpl.
    rewrite digit_value_hexchar by (apply N.mod_lt; discriminate).
    rewrite Nat2N.inj_succ, N.pow_succ_r', N.Div0.mod_mul_r. lia.
Qed.

Lemma PyLong_FromString_hex (s : str) :
  s <> [] -> Forall (fun c => is_hex c = true) s ->
  PyLong_FromString s = Some (Z.of_N (hex_value 0 s)).
Proof.
  intros Hne H. unfold PyLong_FromString.
  destruct H as [|c r Hc Hr]; [done|]. clear Hne.
  assert (E1 : lstrip_by Py_ISSPACE (c :: r) = c :: r).
  { apply lstrip_by_fixed. char_cases. }
  rewrite E1.
  assert (E2 : (c =? 43)%N = false) by char_cases.
  assert (E3 : (c =? 45)%N = false) by char_cases.
  rewrite E2, E3.
  assert (E4 : match c :: r with
               | c0 :: x :: r0 =>
                   if (c0 =? 48)%N && ((x =? 120) || (x =? 88))%N
                   then match r0 with
                        | u :: r' => if (u =? 95)%N then r' else r0
                        | [] => r0
                        end
                   else c :: r
               | _ => c :: r
               end = c :: r).
  { destruct Hr as [|x r0 Hx _]; [reflexivity|].
    assert ((x =? 120)%N = false) as -> by char_cases.
    assert ((x =? 88)%N = false) as -> by char_cases.
    by rewrite andb_false_r. }
  rewrite E4.
  assert (E5 : startswith [95%N] (c :: r) = false).
  { change (startswith [95%N] (c :: r)) with ((95 =? c)%N && true).
    assert ((95 =? c)%N = false) as -> by char_cases. reflexivity. }
  rewrite E5.
  pose proof (scan_hex_app (c :: r) [] 0 (Forall_cons_2 _ _ _ Hc Hr)) as E6.
  rewrite app_nil_r in E6. rewrite E6. simpl. f_equal. lia.
Qed.

Lemma int16_hex todecimal (s : str) :
  s <> [] -> Forall (fun c => is_hex c = true) s ->
  int16 todecimal s = Some (Z.of_N (hex_value 0 s)).
Proof.
  intros Hne H. unfold int16.
  assert (forallb (fun ch => (ch <? 128)%N) s = true) as ->.
  { apply forallb_forall. intros c Hin.
    rewrite Forall_forall in H. apply list_elem_of_In, H in Hin. char_cases. }
  by apply PyLong_FromString_hex.
Qed.

Lemma delete_from_absent a (old s : str) :
  Forall (fun c => (a =? c)%N = false) s -> delete_from (a :: old) 0 s = s.
Proof.
  induction 1 as [|c s Hc _ IH]; [reflexivity|].
  change (delete_from (a :: old) 0 (c :: s)) with
    (if (a =? c)%N && startswith old s
     then delete_from (a :: old) (length (a :: old) - 1) s
     else c :: delete_from (a :: old) 0 s).
  by rewrite Hc, IH.
Qed.

Lemma delete_one_app a (l r : str) :
  delete_from [a] 0 (l ++ r) = delete_from [a] 0 l ++ delete_from [a] 0 r.
Proof.
  induction l as [|c l IH]; [reflexivity|].
  change (delete_from [a] 0 ((c :: l) ++ r)) with
    (if (a =? c)%N && true then delete_from [a] 0 (l ++ r)
     else c :: delete_from [a] 0 (l ++ r)).
  change (delete_from [a] 0 (c :: l)) with
    (if (a =? c)%N && true then delete_from [a] 0 l
     else c :: delete_from [a] 0 l).
  rewrite IH. by destruct (a =? c)%N.
Qed.

Lemma lstrip_by_none f (s : str) :
  Forall (fun c => f c = false) s -> lstrip_by f s = s.
Proof. destruct 1 as [|c s Hc _]; [reflexivity|]. by apply lstrip_by_fixed. Qed.

Lemma rstrip_by_none f (s : str) :
  Forall (fun c => f c = false) s -> rstrip_by f s = s.
Proof.
  induction 1 as [|c s Hc _ IH]; simpl; [reflexivity|].
  rewrite IH. destruct s; [by rewrite Hc | reflexivity].
Qed.

Lemma rstrip_by_snoc f (s : str) c :
  f c = true -> rstrip_by f (s ++ [c]) = rstrip_by f s.
Proof.
  intros Hc. induction s as [|d s IH]; simpl; [by rewrite Hc|]. by rewrite IH.
Qed.

Lemma strip_by_none f (s : str) :
  Forall (fun c => f c = false) s -> strip_by f s = s.
Proof.
  intros H. unfold strip_by. rewrite (lstrip_by_none f s H).
  by apply rstrip_by_none.
Qed.

Lemma hex_groups (hex : str) :
  take 8 hex ++ take 4 (drop 8 hex) ++ take 4 (drop 12 hex)
    ++ take 4 (drop 16 hex) ++ drop 20 hex = hex.
Proof.
  replace (drop 20 hex) with (drop 4 (drop 16 hex)) by by rewrite drop_drop.
  rewrite take_drop.
  replace (drop 16 hex) with (drop 4 (drop 12 hex)) by by rewrite drop_drop.
  rewrite take_drop.
  replace (drop 12 hex) with (drop 4 (drop 8 hex)) by by rewrite drop_drop.
  rewrite take_drop. apply take_drop.
Qed.

Lemma UUID_str_chars n : Forall (fun c => is_uuid_char c = true) (UUID_str n).
Proof.
  pose proof (hex_digits_is_hex 32 n) as H.
  assert (Hh : Forall (fun c => is_uuid_char c = true) (hex_digits 32 n)).
  { eapply Forall_impl; [exact H|]. apply is_hex_uuid_char. }
  unfold UUID_str.
  repeat (apply Forall_app; split);
    solve [ by apply Forall_take | by apply Forall_drop
          | by apply Forall_take, Forall_drop | by repeat constructor ].
Qed.

Lemma UUID_str_length n : length (UUID_str n) = 36.
Proof.
  pose proof (hex_digits_length 32 n) as H.
  unfold UUID_str. rewrite !length_app, !length_take, !length_drop, H.
  reflexivity.
Qed.

Lemma UUID_str_without_hyphens n :
  replace_empty (lit "-") (UUID_str n) = hex_digits 32 n.
Proof.
  pose proof (hex_digits_is_hex 32 n) as H.
  assert (Hh : Forall (fun c => (45 =? c)%N = false) (hex_digits 32 n)).
  { eapply Forall_impl; [exact H|]. intros c Hc. char_cases. }
  unfold replace_empty, UUID_str. change (lit "-") with [45%N].
  rewrite !delete_one_app.
  change (delete_from [45%N] 0 [45%N]) with (@nil N).
  rewrite !delete_from_absent
    by (repeat (apply Forall_take || apply Forall_drop); exact Hh).
  rewrite !app_nil_l. apply hex_groups.
Qed.

Section Parsing.

Variable todecimal : N -> option N.

Lemma uuid_UUID_of_digits (hex : str) n :
  (n < 2 ^ 128)%N ->
  replace_empty (lit "-")
    (strip_chars (lit "{}")
       (replace_empty (lit "uuid:") (replace_empty (lit "urn:") hex)))
  = hex_digits 32 n ->
  uuid_UUID todecimal hex = Some n.
Proof.
  intros Hn E. unfold uuid_UUID. rewrite E, hex_digits_length. simpl negb.
  cbv iota.
  rewrite int16_hex.
  - rewrite hex_value_digits. change (N.of_nat 32) with 32%N.
    change (16 ^ 32)%N with (2 ^ 128)%N. rewrite N.mod_small by exact Hn.
    change (0 * 2 ^ 128 + n)%N with n.
    assert ((0 <=? Z.of_N n)%Z && (Z.of_N n <? 2 ^ 128)%Z = true) as ->.
    { apply andb_true_intro; split; [apply Z.leb_le; lia|].
      apply Z.ltb_lt. change (2 ^ 128)%Z with (Z.of_N (2 ^ 128)). lia. }
    by rewrite N2Z.id.
  - intros E0. apply (f_equal length) in E0.
    rewrite hex_digits_length in E0. discriminate.
  - apply hex_digits_is_hex.
Qed.

Lemma no_such_char (P : N -> bool) a (s : str) :
  (forall c, P c = true -> (a =? c)%N = false) ->
  Forall (fun c => P c = true) s -> Forall (fun c => (a =? c)%N = false) s.
Proof. intros HP H. eapply Forall_impl; [exact H|]. exact HP. Qed.

Lemma no_brace (P : N -> bool) (s : str) :
  (forall c, P c = true -> c <> 123%N /\ c <> 125%N) ->
  Forall (fun c => P c = true) s ->
  Forall (fun c => existsb (N.eqb c) (lit "{}") = false) s.
Proof.
  intros HP H. eapply Forall_impl; [exact H|]. intros c Hc.
  destruct (HP c Hc). simpl. char_cases.
Qed.

Lemma replace_prefixes_absent (s : str) :
  Forall (fun c => (117 =? c)%N = false) s ->
  replace_empty (lit "uuid:") (replace_empty (lit "urn:") s) = s.
Proof.
  intros H. unfold replace_empty.
  change (lit "urn:") with (117%N :: lit "rn:").
  change (lit "uuid:") with (117%N :: lit "uid:").
  rewrite (delete_from_absent 117 (lit "rn:") s H).
  by apply delete_from_absent.
Qed.

(** Parsing the canonical rendering gives the value back. *)
Lemma uuid_UUID_canonical n :
  (n < 2 ^ 128)%N -> uuid_UUID todecimal (UUID_str n) = Some n.
Proof.
  intros Hn. apply uuid_UUID_of_digits; [exact Hn|].
  pose proof (UUID_str_chars n) as H.
  rewrite replace_prefixes_absent
    by (eapply no_such_char; [|exact H]; intros; char_cases).
  unfold strip_chars. rewrite strip_by_none
    by (eapply no_brace; [|exact H]; intros; char_cases).
  apply UUID_str_without_hyphens.
Qed.






Lemma below_pow2_bits x :
  (x < 2 ^ 128)%N <-> forall i, (128 <= i)%N -> N.testbit x i = false.
Proof.
  split.
  - intros Hx i Hi. destruct (N.eq_dec x 0%N) as [->|Hx0]; [apply N.bits_0|].
    apply N.bits_above_log2. apply N.lt_le_trans with 128%N; [|exact Hi].
    apply N.log2_lt_pow2; lia.
  - intros Hx. destruct (N.eq_dec x 0%N) as [->|Hx0]; [reflexivity|].
    apply N.log2_lt_pow2; [lia|].
    destruct (N.lt_ge_cases (N.log2 x) 128) as [Hlt|Hge]; [exact Hlt|].
    pose proof (N.bit_log2 x Hx0) as Hb.
    rewrite (Hx _ Hge) in Hb. discriminate.
Qed.

(** [uuid4] yields a 128-bit value. *)
Lemma uuid4_range entropy : (uuid4 entropy < 2 ^ 128)%N.
Proof.
  unfold uuid4.
  assert (Hm : (entropy mod 2 ^ 128 < 2 ^ 128)%N)
    by (apply N.mod_lt; discriminate).
  set (m := (entropy mod 2 ^ 128)%N) in *.
  apply below_pow2_bits. intros i Hi.
  rewrite N.lor_spec, N.ldiff_spec, N.lor_spec, N.ldiff_spec.
  rewrite (proj1 (below_pow2_bits m) Hm i Hi).
  rewrite (proj1 (below_pow2_bits (N.shiftl 32768 48)) eq_refl i Hi).
  rewrite (proj1 (below_pow2_bits (N.shiftl 4 76)) eq_refl i Hi).
  reflexivity.
Qed.

End Parsing.

(** ** Text-mode round trip *)

Lemma universal_newlines_out os (s : str) :
  Forall (fun c => c <> 13%N) s -> universal_newlines (newline_out os s) = s.
Proof.
  induction 1 as [|c s Hc _ IH]; [reflexivity|].
  assert (E13 : (c =? 13)%N = false) by by apply N.eqb_neq.
  cbn [newline_out]. destruct (N.eqb_spec c 10) as [->|Hc10].
  - destruct os; cbn; by rewrite IH.
  - cbn [universal_newlines]. by rewrite E13, IH.
Qed.

Lemma newline_out_posix (s : str) : newline_out posix s = s.
Proof.
  induction s as [|c s IH]; [reflexivity|]. cbn [newline_out].
  destruct (N.eqb_spec c 10) as [->|Hc]; cbn; by rewrite IH.
Qed.

(** ** Encoding *)

Lemma forallb_Forall (f : N -> bool) (s : str) :
  Forall (fun c => f c = true) s <-> forallb f s = true.
Proof.
  induction s as [|c s IH]; simpl; [by split|].
  rewrite Forall_cons, andb_true_iff. by rewrite IH.
Qed.

Lemma utf8_size_ascii (s : str) :
  Forall (fun c => (c <? 128)%N = true) s -> utf8_size s = length s.
Proof.
  induction 1 as [|c s Hc _ IH]; [reflexivity|].
  simpl. unfold utf8_width. by rewrite Hc, IH.
Qed.

Lemma rstrip_by_split f (s : str) : exists ws, s = rstrip_by f s ++ ws.
Proof.
  induction s as [|c s [ws E]]; simpl; [by exists []|].
  destruct (rstrip_by f s) as [|d r].
  - destruct (f c); [exists (c :: s)|exists s]; reflexivity.
  - exists ws. by rewrite E at 1.
Qed.

Lemma strip_by_Forall (P : N -> Prop) f (s : str) :
  Forall P s -> Forall P (strip_by f s).
Proof.
  intros H. unfold strip_by.
  assert (H1 : Forall P (lstrip_by f s)).
  { induction H as [|c s Hc Hs IH]; simpl; [constructor|].
    destruct (f c); [exact IH|by constructor]. }
  destruct (rstrip_by_split f (lstrip_by f s)) as [ws E].
  rewrite E in H1. by apply Forall_app in H1 as [H1 _].
Qed.

(** The clean-up keeps code points and adds none. *)
Lemma html_content_Forall (P : N -> Prop) (text : str) :
  Forall P text -> Forall P (html_content text).
Proof.
  intros H. unfold html_content, strip, slice_from, slice_to_neg.
  apply strip_by_Forall.
  assert (H0 : Forall P (strip_by isspace text)) by by apply strip_by_Forall.
  repeat match goal with
         | |- Forall P (if ?b then _ else _) => destruct b
         | |- Forall P (drop _ _) => apply Forall_drop
         | |- Forall P (take _ _) => apply Forall_take
         end; exact H0.
Qed.


(** ** The handlers *)

Section Handlers.

Variable rt : Runtime.

(** The ways through [generate_game]. *)
Lemma generate_game_outcome gemini entropy request w :
  generate_game rt gemini entropy request w =
    let w1 := emit (Generate (instruction_of request)) w in
    match gemini (instruction_of request) with
    | inl e => (Raise (if is_Exception e then wrapped rt e else e), w1)
    | inr text =>
        let html := html_content text in
        let id := UUID_str (uuid4 entropy) in
        if valid_html rt html
        then if forallb encodable html
             then (Return (mkGameResponse id
                             (lit "Game generated successfully!")
                             (lit "/api/game/" ++ id)),
                   mkWorld (<[id ++ lit ".html" := html]> (files w))
                           (trace w1 ++ [WriteText (id ++ lit ".html") html]))
             else (Raise (wrapped rt (UnicodeEncodeError html)),
                   mkWorld (<[id ++ lit ".html" := []]> (files w))
                           (trace w1 ++ [WriteText (id ++ lit ".html") html]))
        else (Raise (wrapped rt (HTTPException 500
                                (lit "Generated content is not valid HTML"))),
              w1)
    end.
Proof.
  unfold generate_game, try_except, bind, generate_content, instruction_of,
    wrapped, write_text.
  destruct (gemini _) as [e|text]; [by destruct e|].
  cbv zeta. destruct (valid_html rt (html_content text)); [|reflexivity].
  by destruct (forallb encodable (html_content text)).
Qed.

Lemma get_game_malformed g w :
  uuid_UUID (unicode_todecimal rt) g = None ->
  get_game rt g w = (Raise (HTTPException 400 (lit "Invalid game ID format")), w).
Proof. intros E. unfold get_game. by rewrite E. Qed.

Lemma get_game_too_long g n w :
  uuid_UUID (unicode_todecimal rt) g = Some n ->
  fits_NAME_MAX (g ++ lit ".html") = false ->
  get_game rt g w = (Raise (OSError (g ++ lit ".html")),
                  emit (Exists (g ++ lit ".html")) w).
Proof.
  intros E Hn. unfold get_game, bind, path_exists. by rewrite E, Hn.
Qed.

Lemma get_game_missing g n w :
  uuid_UUID (unicode_todecimal rt) g = Some n ->
  fits_NAME_MAX (g ++ lit ".html") = true ->
  files w !! (g ++ lit ".html") = None ->
  get_game rt g w = (Raise (HTTPException 404 (lit "Game not found")),
                  emit (Exists (g ++ lit ".html")) w).
Proof.
  intros E Hn Hf. unfold get_game, bind, path_exists. rewrite E, Hn.
  rewrite Hf. reflexivity.
Qed.

Lemma get_game_found g n doc w :
  uuid_UUID (unicode_todecimal rt) g = Some n ->
  fits_NAME_MAX (g ++ lit ".html") = true ->
  files w !! (g ++ lit ".html") = Some doc ->
  get_game rt g w = (Return (universal_newlines (newline_out (host rt) doc)),
                  emit (ReadText (g ++ lit ".html"))
                    (emit (Exists (g ++ lit ".html")) w)).
Proof.
  intros E Hn Hf. unfold get_game, bind, path_exists. rewrite E, Hn, Hf.
  change (bool_decide (is_Some (Some doc))) with true. cbv beta iota.
  unfold negb, read_text. cbn [files emit]. by rewrite Hf.
Qed.

Lemma get_game_files g w : files (snd (get_game rt g w)) = files w.
Proof.
  destruct (uuid_UUID (unicode_todecimal rt) g) as [n|] eqn:E.
  - destruct (fits_NAME_MAX (g ++ lit ".html")) eqn:Hn.
    + destruct (files w !! (g ++ lit ".html")) as [doc|] eqn:Hf.
      * by rewrite (get_game_found g n doc w E Hn Hf).
      * by rewrite (get_game_missing g n w E Hn Hf).
    + by rewrite (get_game_too_long g n w E Hn).
  - by rewrite (get_game_malformed g w E).
Qed.

(** The name of an issued identifier is well within [NAME_MAX]. *)
Lemma canonical_name_fits n : fits_NAME_MAX (UUID_str n ++ lit ".html") = true.
Proof.
  assert (H : utf8_size (UUID_str n ++ lit ".html")
              = length (UUID_str n ++ lit ".html")).
  { apply utf8_size_ascii. apply Forall_app. split; [|by repeat constructor].
    eapply Forall_impl; [apply UUID_str_chars|]. intros c Hc. char_cases. }
  unfold fits_NAME_MAX. rewrite H, length_app, UUID_str_length. reflexivity.
Qed.

Lemma get_game_canonical n doc w :
  (n < 2 ^ 128)%N ->
  files w !! (UUID_str n ++ lit ".html") = Some doc ->
  get_game rt (UUID_str n) w
  = (Return (universal_newlines (newline_out (host rt) doc)),
     emit (ReadText (UUID_str n ++ lit ".html"))
       (emit (Exists (UUID_str n ++ lit ".html")) w)).
Proof.
  intros Hn Hf. eapply get_game_found; [|apply canonical_name_fits|exact Hf].
  by apply uuid_UUID_canonical.
Qed.

(** *** Validation of the request body *)

(** C4. A prompt is accepted exactly when its length is between 10 and
    1000 inclusive; a prompt outside that range (the empty one included)
    is answered with a validation error while the world, and so the trace
    of calls to the generation client, is left as it was. *)
Theorem prompt_length_validation gemini entropy (body_prompt : str) w :
  (GameRequest_validate body_prompt = Some (mkGameRequest body_prompt)
   <-> 10 <= length body_prompt <= 1000)
  /\ (GameRequest_validate body_prompt = None
      <-> ~ (10 <= length body_prompt <= 1000))
  /\ (~ (10 <= length body_prompt <= 1000) ->
      post_api_generate rt gemini entropy body_prompt w
      = (Raise RequestValidationError, w))
  /\ (10 <= length body_prompt <= 1000 ->
      post_api_generate rt gemini entropy body_prompt w
      = generate_game rt gemini entropy (mkGameRequest body_prompt) w).
Proof.
  unfold post_api_generate, GameRequest_validate.
  destruct (Nat.leb_spec 10 (length body_prompt));
    destruct (Nat.leb_spec (length body_prompt) 1000); cbn [andb];
    repeat split; intros; try done; try lia.
Qed.

(** *** Failures of [generate_game] *)

(** C3, what the source does: when the cleaned text fails the check of
    line 118, the [HTTPException] raised there is caught by the
    [except Exception] clause of the same [try] and raised anew, so the
    answer is a 500 whose detail is the wrapping of that exception and
    not the fixed text. *)
Theorem invalid_html_detail_is_wrapped gemini entropy request text w :
  gemini (instruction_of request) = inr text ->
  valid_html rt (html_content text) = false ->
  exists detail,
    generate_game rt gemini entropy request w
    = (Raise (HTTPException 500 detail),
       emit (Generate (instruction_of request)) w)
    /\ detail = lit "Failed to generate game: "
                  ++ HTTPException_str rt 500
                       (lit "Generated content is not valid HTML")
    /\ detail <> lit "Generated content is not valid HTML"
    /\ detail <> lit "generated content is not valid HTML".
Proof.
  intros Hg Hv. rewrite generate_game_outcome, Hg. cbv zeta. rewrite Hv.
  eexists. split; [reflexivity|]. split; [reflexivity|].
  split; discriminate.
Qed.

Lemma changed_directory_was_checked gemini entropy request w :
  files (snd (generate_game rt gemini entropy request w)) <> files w ->
  exists text, gemini (instruction_of request) = inr text
               /\ valid_html rt (html_content text) = true.
Proof.
  rewrite generate_game_outcome. cbv zeta.
  destruct (gemini (instruction_of request)) as [e0|text];
    [intros H; by destruct H|].
  destruct (valid_html rt (html_content text)) eqn:Hv;
    [intros _; eauto|intros H; by destruct H].
Qed.

(** C8, amended. A generation request that fails because the client
    raised, or because the cleaned text failed the check, leaves the games
    directory as it was: the only thing the request did was the call to the
    client.  And a request that changes the directory is one whose client
    answered with text whose cleaned form passed the check: nothing is
    written before that. *)
Theorem failed_generation_writes_nothing gemini entropy request w :
  ((exists e0, gemini (instruction_of request) = inl e0)
   \/ (exists text, gemini (instruction_of request) = inr text
                    /\ valid_html rt (html_content text) = false) ->
   (exists e, generate_game rt gemini entropy request w
              = (Raise e, emit (Generate (instruction_of request)) w))
   /\ files (snd (generate_game rt gemini entropy request w)) = files w)
  /\ (files (snd (generate_game rt gemini entropy request w)) <> files w ->
      exists text, gemini (instruction_of request) = inr text
                   /\ valid_html rt (html_content text) = true).
Proof.
  split; [|apply changed_directory_was_checked].
  rewrite generate_game_outcome. cbv zeta.
  intros [[e0 Hg] | (text & Hg & Hv)]; rewrite Hg.
  - split; [eexists; reflexivity|reflexivity].
  - rewrite Hv. split; [eexists; reflexivity|reflexivity].
Qed.

(** *** Retrieval *)

(** C5. An identifier that [uuid.UUID] does not parse is answered with
    the 400 of a malformed identifier, never with the 404 of a missing
    game, and the world is untouched: the directory was not looked at. *)
Theorem malformed_id_is_bad_request g w :
  uuid_UUID (unicode_todecimal rt) g = None ->
  get_game rt g w
  = (Raise (HTTPException 400 (lit "Invalid game ID format")), w)
  /\ fst (get_game rt g w) <> Raise (HTTPException 404 (lit "Game not found")).
Proof.
  intros E. rewrite (get_game_malformed g w E). split; [reflexivity|].
  discriminate.
Qed.

(** C6, amended. An identifier that parses, whose file name is no longer
    than [NAME_MAX], and that has no stored document is answered with the
    404 of a missing game: not a crash, not an empty success, not the 400
    of a malformed identifier. *)
Theorem unknown_id_is_not_found g n w :
  uuid_UUID (unicode_todecimal rt) g = Some n ->
  fits_NAME_MAX (g ++ lit ".html") = true ->
  files w !! (g ++ lit ".html") = None ->
  fst (get_game rt g w) = Raise (HTTPException 404 (lit "Game not found"))
  /\ files (snd (get_game rt g w)) = files w.
Proof.
  intros E Hn Hf. by rewrite (get_game_missing g n w E Hn Hf).
Qed.

(** *** The store invariant *)

Lemma post_api_generate_files gemini entropy body_prompt w name doc :
  files (snd (post_api_generate rt gemini entropy body_prompt w)) !! name
    = Some doc ->
  files w !! name = Some doc
  \/ (name = UUID_str (uuid4 entropy) ++ lit ".html"
      /\ (valid_html rt doc = true
          \/ doc = [] /\ ~ client_encodable gemini)).
Proof.
  unfold post_api_generate.
  destruct (GameRequest_validate body_prompt) as [request|]; [|by left].
  rewrite generate_game_outcome. cbv zeta.
  destruct (gemini (instruction_of request)) as [e|text] eqn:Hg; [by left|].
  destruct (valid_html rt (html_content text)) eqn:Hv; [|by left].
  destruct (forallb encodable (html_content text)) eqn:He;
    cbn [snd files]; rewrite lookup_insert; case_decide as Hn;
    try (by left); intros [= <-]; right; (split; [done|]).
  - by left.
  - right. split; [done|]. intros Hc.
    pose proof (html_content_Forall _ _ (Hc _ _ Hg)) as H.
    apply forallb_Forall in H. congruence.
Qed.

Lemma serve_names_ok r w : names_ok w -> names_ok (serve rt r w).
Proof.
  intros Hw name doc. destruct r as [gemini entropy body_prompt|g];
    cbn [serve].
  - intros H. apply post_api_generate_files in H as [H|[-> _]]; eauto.
  - rewrite get_game_files. apply Hw.
Qed.

Lemma serve_all_names_ok rs w : names_ok w -> names_ok (serve_all rt rs w).
Proof.
  revert w. induction rs as [|r rs IH]; intros w Hw; [exact Hw|].
  apply IH, serve_names_ok, Hw.
Qed.

Lemma reachable_names_ok rs : names_ok (serve_all rt rs empty_world).
Proof.
  apply serve_all_names_ok. intros name doc H.
  cbn in H. by rewrite lookup_empty in H.
Qed.

Lemma serve_store_ok r w :
  request_encodable r -> store_ok rt w -> store_ok rt (serve rt r w).
Proof.
  intros Hr Hw name doc. destruct r as [gemini entropy body_prompt|g];
    cbn [serve].
  - intros H.
    apply post_api_generate_files in H as [H|[-> [Hv|[_ Hc]]]];
      [eauto | eauto | by destruct Hc].
  - rewrite get_game_files. apply Hw.
Qed.

Lemma serve_all_store_ok rs w :
  Forall request_encodable rs -> store_ok rt w ->
  store_ok rt (serve_all rt rs w).
Proof.
  intros Hrs. revert w. induction Hrs as [|r rs Hr _ IH]; intros w Hw;
    [exact Hw|].
  by apply IH, serve_store_ok.
Qed.

(** C7, amended. When the generation client returns only text that UTF-8
    can encode, then after any sequence of generation and retrieval
    requests from the empty store every file holds a document that begins,
    case folded, with the doctype token (the store is a finite map, so a
    name has one document).  Generation with such a client adds only
    documents it has checked; retrieval writes nothing and hands out
    whatever is stored without checking. *)
Theorem store_invariant rs :
  Forall request_encodable rs ->
  store_ok rt (serve_all rt rs empty_world)
  /\ (forall gemini entropy body_prompt w name doc,
        client_encodable gemini ->
        files (snd (post_api_generate rt gemini entropy body_prompt w))
          !! name = Some doc ->
        files w !! name = Some doc \/ valid_html rt doc = true)
  /\ (forall g w, files (snd (get_game rt g w)) = files w)
  /\ (forall g n doc w,
        uuid_UUID (unicode_todecimal rt) g = Some n ->
        fits_NAME_MAX (g ++ lit ".html") = true ->
        files w !! (g ++ lit ".html") = Some doc ->
        fst (get_game rt g w)
        = Return (universal_newlines (newline_out (host rt) doc))).
Proof.
  intros Hrs. split; [|split; [|split]].
  - apply serve_all_store_ok; [exact Hrs|]. intros name doc H.
    cbn in H. by rewrite lookup_empty in H.
  - intros * Hc H.
    apply post_api_generate_files in H as [H|[_ [Hv|[_ Hn]]]];
      [eauto | eauto | by destruct Hn].
  - apply get_game_files.
  - intros * E Hn Hf. by rewrite (get_game_found g n doc w E Hn Hf).
Qed.

(** *** Generation followed by retrieval *)

(** C1, amended. When the client returns text whose cleaned form passes
    the check and can be encoded as UTF-8, the request succeeds, the answer
    carries the issued identifier and the path [/api/game/] followed by it,
    and retrieval by that identifier yields the cleaned text after the
    newline translation of text mode: the cleaned text itself when it holds
    no carriage return, on any host; and on a POSIX host, in every case,
    the cleaned text with each carriage return, together with a line feed
    right after it, read as one line feed. *)
Theorem generate_then_get gemini entropy request text w :
  gemini (instruction_of request) = inr text ->
  valid_html rt (html_content text) = true ->
  Forall (fun c => encodable c = true) (html_content text) ->
  exists response w',
    generate_game rt gemini entropy request w = (Return response, w')
    /\ game_id response = UUID_str (uuid4 entropy)
    /\ play_url response = lit "/api/game/" ++ game_id response
    /\ (Forall (fun c => c <> 13%N) (html_content text) ->
        fst (get_game rt (game_id response) w')
        = Return (html_content text))
    /\ (host rt = posix ->
        fst (get_game rt (game_id response) w')
        = Return (universal_newlines (html_content text))).
Proof.
  intros Hg Hv He. apply forallb_Forall in He.
  rewrite generate_game_outcome, Hg. cbv zeta. rewrite Hv, He.
  eexists _, _. split; [reflexivity|]. cbn [game_id play_url].
  split; [reflexivity|]. split; [reflexivity|].
  assert (E : forall doc, doc = html_content text ->
            fst (get_game rt (UUID_str (uuid4 entropy))
                   (mkWorld (<[UUID_str (uuid4 entropy) ++ lit ".html" := doc]>
                               (files w))
                      (trace (emit (Generate (instruction_of request)) w)
                         ++ [WriteText
                               (UUID_str (uuid4 entropy) ++ lit ".html")
                               doc])))
            = Return (universal_newlines (newline_out (host rt) doc))).
  { intros doc _. erewrite get_game_canonical; [reflexivity| |].
    - apply uuid4_range.
    - cbn [files]. apply lookup_insert_eq. }
  split.
  - intros Hcr. rewrite (E _ eq_refl). by rewrite universal_newlines_out.
  - intros Hp. rewrite (E _ eq_refl), Hp. by rewrite newline_out_posix.
Qed.

(** *** Identifiers that parse but are not canonical *)




End Handlers.

(** ** The properties at concrete inputs, on the reference runtime *)

(** The examples of the specification for the clean-up. *)
Example html_content_fenced : html_content fenced_document = a_document.
Proof. reflexivity. Qed.

Example html_content_plain : html_content a_document = a_document.
Proof. reflexivity. Qed.

Example not_a_document_invalid :
  valid_html reference_runtime (html_content (lit "<p>not a document</p>"))
  = false.
Proof. reflexivity. Qed.

Lemma prompt_length_validation_examples :
  GameRequest_validate [] = None
  /\ GameRequest_validate (repeat 97%N 9) = None
  /\ GameRequest_validate (repeat 97%N 10) <> None
  /\ GameRequest_validate (repeat 97%N 1000) <> None
  /\ GameRequest_validate (repeat 97%N 1001) = None.
Proof. repeat split; try reflexivity; discriminate. Qed.

Lemma invalid_html_detail_is_wrapped_witness :
  exists detail,
    generate_game reference_runtime
      (fun _ => inr (lit "<p>not a document</p>")) 0
      (mkGameRequest a_prompt) empty_world
    = (Raise (HTTPException 500 detail),
       emit (Generate (instruction_of (mkGameRequest a_prompt))) empty_world)
    /\ detail = lit "Failed to generate game: "
                  ++ starlette_str 500 (lit "Generated content is not valid HTML")
    /\ detail <> lit "Generated content is not valid HTML"
    /\ detail <> lit "generated content is not valid HTML".
Proof.
  apply (invalid_html_detail_is_wrapped reference_runtime
           (fun _ => inr (lit "<p>not a document</p>")) 0
           (mkGameRequest a_prompt) (lit "<p>not a document</p>") empty_world);
    reflexivity.
Defined.

(** On the reference runtime the detail reads as follows. *)
Example invalid_html_detail_reference :
  fst (generate_game reference_runtime
         (fun _ => inr (lit "<p>not a document</p>")) 0
         (mkGameRequest a_prompt) empty_world)
  = Raise (HTTPException 500
             (lit "Failed to generate game: 500: Generated content is not valid HTML")).
Proof. reflexivity. Qed.

Lemma failed_generation_writes_nothing_witness :
  (exists e,
      generate_game reference_runtime
        (fun _ => inl (OtherException (lit "quota exceeded"))) 0
        (mkGameRequest a_prompt) empty_world
      = (Raise e,
         emit (Generate (instruction_of (mkGameRequest a_prompt))) empty_world))
  /\ files (snd (generate_game reference_runtime
                   (fun _ => inl (OtherException (lit "quota exceeded"))) 0
                   (mkGameRequest a_prompt) empty_world))
     = files empty_world.
Proof.
  apply (proj1 (failed_generation_writes_nothing reference_runtime
                  (fun _ => inl (OtherException (lit "quota exceeded"))) 0
                  (mkGameRequest a_prompt) empty_world)).
  left. by eexists.
Defined.

(** C8, as stated, fails: a request can fail after the directory was
    changed.  The cleaned text here passes the check, the file is created,
    the text cannot be encoded, and the request ends in a 500 with an empty
    file left behind. *)
Lemma failed_write_leaves_empty_file :
  let run := generate_game reference_runtime surrogate_client 77
               (mkGameRequest a_prompt) empty_world in
  fst run
  = Raise (wrapped reference_runtime
             (UnicodeEncodeError (html_content surrogate_document)))
  /\ files empty_world !! (UUID_str (uuid4 77) ++ lit ".html") = None
  /\ files (snd run) !! (UUID_str (uuid4 77) ++ lit ".html") = Some []
  /\ files (snd run) <> files empty_world.
Proof.
  cbv zeta. split; [reflexivity|]. split; [reflexivity|].
  assert (H : files (snd (generate_game reference_runtime surrogate_client 77
                            (mkGameRequest a_prompt) empty_world))
                !! (UUID_str (uuid4 77) ++ lit ".html") = Some [])
    by by vm_compute.
  split; [exact H|]. intros E. rewrite E in H. discriminate.
Qed.

Lemma malformed_id_is_bad_request_witness :
  uuid_UUID latin1_todecimal (lit "not-a-uuid") = None
  /\ get_game reference_runtime (lit "not-a-uuid") empty_world
     = (Raise (HTTPException 400 (lit "Invalid game ID format")), empty_world).
Proof.
  split; [reflexivity|].
  apply (malformed_id_is_bad_request reference_runtime (lit "not-a-uuid")
           empty_world).
  reflexivity.
Defined.

Lemma unknown_id_is_not_found_witness :
  fst (get_game reference_runtime
         (lit "12345678-1234-5678-1234-567812345678") empty_world)
  = Raise (HTTPException 404 (lit "Game not found"))
  /\ files (snd (get_game reference_runtime
                   (lit "12345678-1234-5678-1234-567812345678") empty_world))
     = files empty_world.
Proof.
  apply (unknown_id_is_not_found reference_runtime
           (lit "12345678-1234-5678-1234-567812345678")
           24197857161011715162171839636988778104%N empty_world);
    reflexivity.
Defined.

(** C6, as stated, fails: three hundred hyphens before the digits are
    removed by [uuid.UUID], so the identifier parses; nothing is stored
    under it; and the existence test raises for the length of the file
    name, which nothing catches. *)
Lemma long_unknown_id_is_not_answered_404 :
  uuid_UUID latin1_todecimal long_unknown_id
  = Some 24197857161011715162171839636988778104%N
  /\ files empty_world !! (long_unknown_id ++ lit ".html") = None
  /\ fst (get_game reference_runtime long_unknown_id empty_world)
     = Raise (OSError (long_unknown_id ++ lit ".html"))
  /\ fst (get_game reference_runtime long_unknown_id empty_world)
     <> Raise (HTTPException 404 (lit "Game not found")).
Proof.
  assert (H : fst (get_game reference_runtime long_unknown_id empty_world)
              = Raise (OSError (long_unknown_id ++ lit ".html")))
    by by vm_compute.
  split; [by vm_compute|]. split; [reflexivity|]. split; [exact H|].
  rewrite H. discriminate.
Qed.

Lemma store_invariant_witness :
  store_ok reference_runtime
    (serve_all reference_runtime
       [PostGenerate fenced_client 77 a_prompt; GetGame (lit "not-a-uuid")]
       empty_world).
Proof.
  apply (store_invariant reference_runtime
           [PostGenerate fenced_client 77 a_prompt; GetGame (lit "not-a-uuid")]).
  repeat constructor. intros instruction text [= <-].
  apply forallb_Forall. reflexivity.
Defined.

(** C7, as stated, fails: a cleaned text that passes the check and ends in
    a lone surrogate leaves a file that is empty, and so does not begin
    with the doctype token. *)
Lemma unencodable_document_breaks_invariant :
  let w := serve_all reference_runtime
             [PostGenerate surrogate_client 77 a_prompt] empty_world in
  valid_html reference_runtime (html_content surrogate_document) = true
  /\ files w !! (UUID_str (uuid4 77) ++ lit ".html") = Some []
  /\ valid_html reference_runtime [] = false
  /\ ~ store_ok reference_runtime w.
Proof.
  cbv zeta.
  assert (H : files (serve_all reference_runtime
                       [PostGenerate surrogate_client 77 a_prompt] empty_world)
                !! (UUID_str (uuid4 77) ++ lit ".html") = Some [])
    by by vm_compute.
  split; [reflexivity|]. split; [exact H|]. split; [reflexivity|].
  intros Hok. destruct (Hok _ _ H) as [Hv _]. discriminate.
Qed.

Lemma generate_then_get_witness :
  exists response w',
    generate_game reference_runtime (fun _ => inr fenced_document) 77
      (mkGameRequest a_prompt) empty_world = (Return response, w')
    /\ game_id response = UUID_str (uuid4 77)
    /\ play_url response = lit "/api/game/" ++ game_id response
    /\ (Forall (fun c => c <> 13%N) (html_content fenced_document) ->
        fst (get_game reference_runtime (game_id response) w')
        = Return (html_content fenced_document))
    /\ (host reference_runtime = posix ->
        fst (get_game reference_runtime (game_id response) w')
        = Return (universal_newlines (html_content fenced_document))).
Proof.
  apply (generate_then_get reference_runtime (fun _ => inr fenced_document) 77
           (mkGameRequest a_prompt) fenced_document empty_world);
    [reflexivity | reflexivity | apply forallb_Forall; reflexivity].
Defined.

(** C1, as stated, fails: a valid document with a carriage return is stored
    as it is, and retrieval by the returned identifier yields it with the
    carriage return and line feed read as one line feed. *)
Lemma round_trip_changes_carriage_return :
  let text := lit "<!DOCTYPE html>" ++ [13%N; 10%N] ++ lit "<html></html>" in
  let generated :=
    generate_game reference_runtime (fun _ => inr text) 77
      (mkGameRequest a_prompt) empty_world in
  html_content text = text
  /\ fst generated
     = Return (mkGameResponse (UUID_str (uuid4 77))
                 (lit "Game generated successfully!")
                 (lit "/api/game/" ++ UUID_str (uuid4 77)))
  /\ fst (get_game reference_runtime (UUID_str (uuid4 77)) (snd generated))
     = Return (lit "<!DOCTYPE html>" ++ [10%N] ++ lit "<html></html>")
  /\ fst (get_game reference_runtime (UUID_str (uuid4 77)) (snd generated))
     <> Return (html_content text).
Proof.
  cbv zeta. split; [reflexivity|]. split; [reflexivity|].
  split; [by vm_compute|]. vm_compute. discriminate.
Qed.



(** * Further properties of the code *)

(** ** The clean-up and white space *)

Lemma lstrip_by_app_space f (ws s : str) :
  Forall (fun c => f c = true) ws -> lstrip_by f (ws ++ s) = lstrip_by f s.
Proof. induction 1 as [|c ws Hc _ IH]; [reflexivity|]. simpl. by rewrite Hc. Qed.

Lemma rstrip_by_app_space f (s ws : str) :
  Forall (fun c => f c = true) ws -> rstrip_by f (s ++ ws) = rstrip_by f s.
Proof.
  intros H. revert s. induction H as [|c ws Hc _ IH]; intros s.
  - by rewrite app_nil_r.
  - rewrite (cons_middle c s ws), app_assoc, IH. by apply rstrip_by_snoc.
Qed.

Lemma lstrip_by_app f (s t : str) :
  lstrip_by f (s ++ t)
  = match lstrip_by f s with
    | [] => lstrip_by f t
    | r => r ++ t
    end.
Proof.
  induction s as [|c s IH]; simpl.
  - by destruct (lstrip_by f t).
  - by destruct (f c).
Qed.

Lemma strip_by_padding f (ws1 s ws2 : str) :
  Forall (fun c => f c = true) ws1 -> Forall (fun c => f c = true) ws2 ->
  strip_by f (ws1 ++ s ++ ws2) = strip_by f s.
Proof.
  intros H1 H2. unfold strip_by.
  rewrite (lstrip_by_app_space f ws1 _ H1), lstrip_by_app.
  destruct (lstrip_by f s) as [|c r] eqn:E.
  - pose proof (lstrip_by_app_space f ws2 [] H2) as E2.
    rewrite app_nil_r in E2. by rewrite E2.
  - by apply rstrip_by_app_space.
Qed.

Lemma rstrip_by_snoc_kept f (s : str) c :
  f c = false -> rstrip_by f (s ++ [c]) = s ++ [c].
Proof.
  intros Hc. induction s as [|d s IH]; simpl; [by rewrite Hc|].
  rewrite IH. by destruct s.
Qed.

Lemma startswith_prefix (p s : str) : startswith p (p ++ s) = true.
Proof. induction p as [|a p IH]; simpl; [reflexivity|]. by rewrite N.eqb_refl. Qed.

Lemma endswith_suffix (p s : str) : endswith p (s ++ p) = true.
Proof. unfold endswith. rewrite rev_app_distr. apply startswith_prefix. Qed.

Lemma slice_to_neg_suffix (s p : str) : slice_to_neg (length p) (s ++ p) = s.
Proof.
  unfold slice_to_neg. rewrite length_app.
  replace (length s + length p - length p) with (length s) by lia.
  by rewrite take_app_length.
Qed.

Lemma space_is_not (c x : N) :
  isspace c = true -> isspace x = false -> (x =? c)%N = false.
Proof. intros Hc Hx. apply N.eqb_neq. intros ->. congruence. Qed.

(** X1. White space around the text of the model never matters, and what
    the clean-up yields has none around it. *)
Theorem html_content_ignores_padding (ws1 raw ws2 : str) :
  all_space ws1 -> all_space ws2 ->
  html_content (ws1 ++ raw ++ ws2) = html_content raw
  /\ strip (html_content raw) = html_content raw.
Proof.
  intros H1 H2. split.
  - unfold html_content, strip. by rewrite (strip_by_padding _ _ _ _ H1 H2).
  - unfold html_content. apply strip_idem.
Qed.

Lemma html_content_ignores_padding_witness :
  html_content ([32%N; 10%N] ++ fenced_document ++ [13%N; 10%N; 9%N])
  = html_content fenced_document
  /\ strip (html_content fenced_document) = html_content fenced_document.
Proof.
  apply (html_content_ignores_padding [32%N; 10%N] fenced_document
           [13%N; 10%N; 9%N]);
    by repeat constructor.
Defined.

(** X2. A document wrapped in a fence, labelled or bare, with white space
    (a line break, say) after the opening marker, comes out as the trimmed
    document, whatever the document is and whatever white space surrounds
    the fence and the closing marker. *)
Theorem html_content_unwraps_fence (marker ws0 ws1 d ws2 ws3 : str) :
  marker = fence_html \/ marker = fence ->
  all_space ws0 -> all_space ws1 -> ws1 <> [] ->
  all_space ws2 -> all_space ws3 ->
  html_content (ws0 ++ (marker ++ ws1 ++ d ++ ws2 ++ fence) ++ ws3) = strip d.
Proof.
  intros Hm H0 H1 Hne H2 H3.
  destruct H1 as [|c ws1 Hc H1]; [done|]. clear Hne.
  set (inner := (c :: ws1) ++ d ++ ws2).
  assert (Hstrip : strip (ws0 ++ (marker ++ inner ++ fence) ++ ws3)
                   = marker ++ inner ++ fence).
  { unfold strip. rewrite (strip_by_padding _ _ _ _ H0 H3). unfold strip_by.
    assert (E : lstrip_by isspace (marker ++ inner ++ fence)
                = marker ++ inner ++ fence).
    { destruct Hm as [-> | ->]; by apply lstrip_by_fixed. }
    rewrite E.
    change fence with ([96%N; 96%N] ++ [96%N]). rewrite !app_assoc.
    by apply rstrip_by_snoc_kept. }
  assert (Hin : html_content (ws0 ++ (marker ++ inner ++ fence) ++ ws3)
                = strip inner).
  { unfold html_content. rewrite Hstrip.
    assert (Hopen : (if startswith fence
                          (if startswith fence_html (marker ++ inner ++ fence)
                           then slice_from 7 (marker ++ inner ++ fence)
                           else marker ++ inner ++ fence)
                     then slice_from 3
                          (if startswith fence_html (marker ++ inner ++ fence)
                           then slice_from 7 (marker ++ inner ++ fence)
                           else marker ++ inner ++ fence)
                     else
                       if startswith fence_html (marker ++ inner ++ fence)
                       then slice_from 7 (marker ++ inner ++ fence)
                       else marker ++ inner ++ fence)
                    = inner ++ fence).
    { assert (E96 : (96 =? c)%N = false) by by apply (space_is_not c 96).
      assert (E104 : (104 =? c)%N = false) by by apply (space_is_not c 104).
      destruct Hm as [-> | ->].
      - rewrite startswith_prefix.
        change (slice_from 7 (fence_html ++ inner ++ fence))
          with (inner ++ fence).
        change (startswith fence (inner ++ fence))
          with ((96 =? c)%N
                && startswith [96%N; 96%N] ((ws1 ++ d ++ ws2) ++ fence)).
        by rewrite E96.
      - change (startswith fence_html (fence ++ inner ++ fence))
          with ((104 =? c)%N
                && startswith (lit "tml") ((ws1 ++ d ++ ws2) ++ fence)).
        rewrite E104. cbn [andb]. by rewrite startswith_prefix. }
    rewrite Hopen, endswith_suffix.
    change 3 with (length fence). by rewrite slice_to_neg_suffix. }
  subst inner. rewrite <- !app_assoc in *. rewrite Hin.
  apply (strip_by_padding isspace (c :: ws1) d ws2); [by constructor|done].
Qed.

Lemma html_content_unwraps_fence_witness :
  html_content ([] ++ (fence_html ++ [10%N] ++ a_document ++ [10%N] ++ fence)
                  ++ [])
  = strip a_document.
Proof.
  apply (html_content_unwraps_fence fence_html [] [10%N] a_document [10%N] []);
    [by left | by repeat constructor ..].
Defined.

(** ** Generation *)

Lemma universal_newlines_no_cr_le n (s : str) :
  length s <= n -> Forall (fun c => c <> 13%N) (universal_newlines s).
Proof.
  revert s. induction n as [|n IH]; intros s Hl.
  - destruct s; [constructor | simpl in Hl; lia].
  - destruct s as [|c s]; [constructor|]. simpl in Hl.
    cbn [universal_newlines]. destruct (N.eqb_spec c 13) as [->|Hc].
    + constructor; [done|]. destruct s as [|d s]; [constructor|].
      simpl in Hl. destruct (d =? 10)%N; apply IH; simpl; lia.
    + constructor; [done|]. apply IH. lia.
Qed.

Lemma UUID_str_inj a b :
  (a < 2 ^ 128)%N -> (b < 2 ^ 128)%N -> UUID_str a = UUID_str b -> a = b.
Proof.
  intros Ha Hb E.
  pose proof (uuid_UUID_canonical latin1_todecimal a Ha) as Pa.
  pose proof (uuid_UUID_canonical latin1_todecimal b Hb) as Pb.
  rewrite E in Pa. congruence.
Qed.

Section MoreHandlers.

Variable rt : Runtime.

(** X3. What leaves [generate_game] as an exception is either something
    that is no [Exception], raised by the client and passed on as it is, or
    a 500 whose detail is "Failed to generate game: " followed by the text
    of the [Exception] that was caught: the one the client raised, the
    handler's own for invalid content, or the encoding error of the
    write. *)
Theorem generate_game_raises_only_500 gemini entropy request w e :
  fst (generate_game rt gemini entropy request w) = Raise e ->
  (is_Exception e = false /\ gemini (instruction_of request) = inl e)
  \/ exists cause,
       is_Exception cause = true
       /\ e = HTTPException 500
                (lit "Failed to generate game: " ++ str_exn rt cause)
       /\ (gemini (instruction_of request) = inl cause
           \/ cause = HTTPException 500
                        (lit "Generated content is not valid HTML")
           \/ exists text,
                gemini (instruction_of request) = inr text
                /\ cause = UnicodeEncodeError (html_content text)).
Proof.
  rewrite generate_game_outcome. cbv zeta.
  destruct (gemini (instruction_of request)) as [e0|text] eqn:Hg.
  - destruct (is_Exception e0) eqn:He; intros [= <-].
    + right. exists e0. split; [exact He|]. split; [reflexivity|by left].
    + by left.
  - destruct (valid_html rt (html_content text)).
    + destruct (forallb encodable (html_content text)); [discriminate|].
      intros [= <-]. right. eexists. split; [|split; [reflexivity|]].
      * reflexivity.
      * right. right. by exists text.
    + intros [= <-]. right. eexists. split; [|split; [reflexivity|]].
      * reflexivity.
      * right. by left.
Qed.

(** X4. A successful generation, which is what a checked text that UTF-8
    can encode gives, writes one file, named after the returned identifier
    and holding the cleaned text; every other file of the directory is as
    before, and the request made one call to the client followed by that
    one write. *)
Theorem generate_game_writes_one_file gemini entropy request text w :
  gemini (instruction_of request) = inr text ->
  valid_html rt (html_content text) = true ->
  Forall (fun c => encodable c = true) (html_content text) ->
  exists response w',
    generate_game rt gemini entropy request w = (Return response, w')
    /\ files w' !! (game_id response ++ lit ".html") = Some (html_content text)
    /\ (forall name, name <> game_id response ++ lit ".html" ->
                     files w' !! name = files w !! name)
    /\ trace w' = trace w
                    ++ [Generate (instruction_of request);
                        WriteText (game_id response ++ lit ".html")
                          (html_content text)].
Proof.
  intros Hg Hv He. apply forallb_Forall in He.
  rewrite generate_game_outcome, Hg. cbv zeta. rewrite Hv, He.
  eexists _, _. split; [reflexivity|]. cbn [game_id files trace emit].
  split; [apply lookup_insert_eq|]. split.
  - intros name Hn. by apply lookup_insert_ne.
  - by rewrite <- app_assoc.
Qed.

Lemma post_api_generate_keeps gemini entropy body_prompt w name doc :
  files w !! name = Some doc ->
  name <> UUID_str (uuid4 entropy) ++ lit ".html" ->
  files (snd (post_api_generate rt gemini entropy body_prompt w)) !! name
  = Some doc.
Proof.
  intros Hf Hn. unfold post_api_generate.
  destruct (GameRequest_validate body_prompt) as [request|]; [|exact Hf].
  rewrite generate_game_outcome. cbv zeta.
  destruct (gemini (instruction_of request)) as [e|text]; [exact Hf|].
  destruct (valid_html rt (html_content text)); [|exact Hf].
  destruct (forallb encodable (html_content text));
    cbn [snd files]; by rewrite lookup_insert_ne.
Qed.

Lemma post_api_generate_keeps_name gemini entropy body_prompt w name :
  is_Some (files w !! name) ->
  is_Some (files (snd (post_api_generate rt gemini entropy body_prompt w))
             !! name).
Proof.
  intros Hf. unfold post_api_generate.
  destruct (GameRequest_validate body_prompt) as [request|]; [|exact Hf].
  rewrite generate_game_outcome. cbv zeta.
  destruct (gemini (instruction_of request)) as [e|text]; [exact Hf|].
  destruct (valid_html rt (html_content text)); [|exact Hf].
  destruct (forallb encodable (html_content text));
    cbn [snd files]; rewrite lookup_insert; by case_decide.
Qed.

(** X5. No request ever removes a file: a name present in the directory is
    present after any sequence of requests. *)
Theorem serve_all_keeps_names rs w name :
  is_Some (files w !! name) ->
  is_Some (files (serve_all rt rs w) !! name).
Proof.
  revert w. induction rs as [|r rs IH]; intros w Hf; [exact Hf|].
  apply IH. destruct r as [gemini entropy body_prompt|g]; cbn [serve].
  - by apply post_api_generate_keeps_name.
  - by rewrite get_game_files.
Qed.

(** X6. A stored document stays as it is through any sequence of requests
    in which no generation is issued the identifier it is stored under. *)
Theorem stored_document_survives rs w name doc :
  files w !! name = Some doc ->
  (forall gemini entropy body_prompt,
      In (PostGenerate gemini entropy body_prompt) rs ->
      name <> UUID_str (uuid4 entropy) ++ lit ".html") ->
  files (serve_all rt rs w) !! name = Some doc.
Proof.
  revert w. induction rs as [|r rs IH]; intros w Hf Hrs; [exact Hf|].
  apply IH.
  - destruct r as [gemini entropy body_prompt|g]; cbn [serve].
    + apply post_api_generate_keeps; [exact Hf|].
      apply (Hrs gemini entropy body_prompt). by left.
    + by rewrite get_game_files.
  - intros gemini entropy body_prompt Hin.
    apply (Hrs gemini entropy body_prompt). by right.
Qed.

(** X7. The handler does not look whether the identifier is taken: when
    two generations of checked, encodable texts are issued the same
    identifier, both succeed, the second document replaces the first, and
    retrieval yields the second. *)
Theorem same_identifier_overwrites
    gemini1 gemini2 entropy1 entropy2 request1 request2 text1 text2 w :
  gemini1 (instruction_of request1) = inr text1 ->
  valid_html rt (html_content text1) = true ->
  Forall (fun c => encodable c = true) (html_content text1) ->
  gemini2 (instruction_of request2) = inr text2 ->
  valid_html rt (html_content text2) = true ->
  Forall (fun c => encodable c = true) (html_content text2) ->
  uuid4 entropy1 = uuid4 entropy2 ->
  let first := generate_game rt gemini1 entropy1 request1 w in
  let second := generate_game rt gemini2 entropy2 request2 (snd first) in
  exists response1 response2,
    fst first = Return response1 /\ fst second = Return response2
    /\ game_id response1 = game_id response2
    /\ fst (get_game rt (game_id response1) (snd second))
       = Return (as_read rt (html_content text2)).
Proof.
  intros Hg1 Hv1 He1 Hg2 Hv2 He2 Hid first second. subst first second.
  apply forallb_Forall in He1, He2.
  rewrite !generate_game_outcome, Hg1. cbv zeta. rewrite Hv1, He1.
  cbn [fst snd]. rewrite Hg2, Hv2, He2. cbn [fst snd].
  eexists _, _. split; [reflexivity|]. split; [reflexivity|].
  cbn [game_id]. split; [by rewrite Hid|].
  erewrite get_game_canonical; [reflexivity| |].
  - apply uuid4_range.
  - cbn [files]. rewrite Hid. apply lookup_insert_eq.
Qed.

(** X8. Two generations of checked, encodable texts that are issued
    different identifiers both succeed and leave two documents, each
    retrievable under its own identifier. *)
Theorem distinct_identifiers_independent
    gemini1 gemini2 entropy1 entropy2 request1 request2 text1 text2 w :
  gemini1 (instruction_of request1) = inr text1 ->
  valid_html rt (html_content text1) = true ->
  Forall (fun c => encodable c = true) (html_content text1) ->
  gemini2 (instruction_of request2) = inr text2 ->
  valid_html rt (html_content text2) = true ->
  Forall (fun c => encodable c = true) (html_content text2) ->
  uuid4 entropy1 <> uuid4 entropy2 ->
  let first := generate_game rt gemini1 entropy1 request1 w in
  let second := generate_game rt gemini2 entropy2 request2 (snd first) in
  exists response1 response2,
    fst first = Return response1 /\ fst second = Return response2
    /\ game_id response1 <> game_id response2
    /\ fst (get_game rt (game_id response1) (snd second))
       = Return (as_read rt (html_content text1))
    /\ fst (get_game rt (game_id response2) (snd second))
       = Return (as_read rt (html_content text2)).
Proof.
  intros Hg1 Hv1 He1 Hg2 Hv2 He2 Hid first second. subst first second.
  apply forallb_Forall in He1, He2.
  rewrite !generate_game_outcome, Hg1. cbv zeta. rewrite Hv1, He1.
  cbn [fst snd]. rewrite Hg2, Hv2, He2. cbn [fst snd].
  eexists _, _. split; [reflexivity|]. split; [reflexivity|].
  cbn [game_id].
  assert (Hne : UUID_str (uuid4 entropy1) <> UUID_str (uuid4 entropy2)).
  { intros E. apply Hid. apply UUID_str_inj; [apply uuid4_range ..|exact E]. }
  split; [exact Hne|]. split.
  - erewrite get_game_canonical; [reflexivity| |].
    + apply uuid4_range.
    + cbn [files]. rewrite lookup_insert_ne.
      * apply lookup_insert_eq.
      * intros E. apply app_inv_tail in E. by apply Hne.
  - erewrite get_game_canonical; [reflexivity| |].
    + apply uuid4_range.
    + cbn [files]. apply lookup_insert_eq.
Qed.

End MoreHandlers.

(** ** Retrieval and sequences of requests *)

Section MoreRetrieval.

Variable rt : Runtime.

Lemma get_game_same_files g w1 w2 :
  files w1 = files w2 -> fst (get_game rt g w1) = fst (get_game rt g w2).
Proof.
  intros E. destruct (uuid_UUID (unicode_todecimal rt) g) as [n|] eqn:Hp.
  - destruct (fits_NAME_MAX (g ++ lit ".html")) eqn:Hn.
    + destruct (files w1 !! (g ++ lit ".html")) as [doc|] eqn:Hf.
      * rewrite (get_game_found rt g n doc w1 Hp Hn Hf).
        rewrite E in Hf. by rewrite (get_game_found rt g n doc w2 Hp Hn Hf).
      * rewrite (get_game_missing rt g n w1 Hp Hn Hf).
        rewrite E in Hf. by rewrite (get_game_missing rt g n w2 Hp Hn Hf).
    + by rewrite !(get_game_too_long rt g n _ Hp Hn).
  - by rewrite !(get_game_malformed rt g _ Hp).
Qed.

Lemma post_api_generate_same_files gemini entropy body_prompt w1 w2 :
  files w1 = files w2 ->
  files (snd (post_api_generate rt gemini entropy body_prompt w1))
  = files (snd (post_api_generate rt gemini entropy body_prompt w2)).
Proof.
  intros E. unfold post_api_generate.
  destruct (GameRequest_validate body_prompt) as [request|]; [|exact E].
  rewrite !generate_game_outcome. cbv zeta.
  destruct (gemini (instruction_of request)) as [e|text]; [exact E|].
  destruct (valid_html rt (html_content text)); [|exact E].
  destruct (forallb encodable (html_content text));
    cbn [snd files]; by rewrite E.
Qed.

(** X9. The answers of [get_game] and when each is given: 400 exactly
    for an identifier that does not parse; and for an identifier whose file
    name is no longer than [NAME_MAX], 404 exactly when it parses and has
    no file, and a body exactly when it parses and has a file, the body
    being the stored document as text mode reads it, with no other
    exception leaving the handler: the read that follows the existence
    test finds the file. *)
Theorem get_game_answers g w :
  (fst (get_game rt g w) = Raise (HTTPException 400 (lit "Invalid game ID format"))
   <-> uuid_UUID (unicode_todecimal rt) g = None)
  /\ (fits_NAME_MAX (g ++ lit ".html") = true ->
      (fst (get_game rt g w) = Raise (HTTPException 404 (lit "Game not found"))
       <-> uuid_UUID (unicode_todecimal rt) g <> None
           /\ files w !! (g ++ lit ".html") = None)
      /\ (forall body,
            fst (get_game rt g w) = Return body
            <-> uuid_UUID (unicode_todecimal rt) g <> None
                /\ exists doc, files w !! (g ++ lit ".html") = Some doc
                               /\ body = as_read rt doc)
      /\ (forall e, fst (get_game rt g w) = Raise e ->
                    e = HTTPException 400 (lit "Invalid game ID format")
                    \/ e = HTTPException 404 (lit "Game not found"))).
Proof.
  destruct (uuid_UUID (unicode_todecimal rt) g) as [n|] eqn:Hp.
  - destruct (fits_NAME_MAX (g ++ lit ".html")) eqn:Hn.
    + destruct (files w !! (g ++ lit ".html")) as [doc|] eqn:Hf.
      * rewrite (get_game_found rt g n doc w Hp Hn Hf). cbn [fst].
        fold (as_read rt doc). repeat split; intros; naive_solver.
      * rewrite (get_game_missing rt g n w Hp Hn Hf). cbn [fst].
        repeat split; intros; naive_solver.
    + rewrite (get_game_too_long rt g n w Hp Hn). cbn [fst].
      repeat split; intros; naive_solver.
  - rewrite (get_game_malformed rt g w Hp). cbn [fst].
    repeat split; intros; naive_solver.
Qed.

(** X10. Retrieval reads and never writes: the answer for an identifier is
    the same after any number of retrievals, of this or other identifiers. *)
Theorem get_game_repeatable g (others : list str) w :
  fst (get_game rt g (serve_all rt (map GetGame others) w))
  = fst (get_game rt g w).
Proof.
  apply get_game_same_files. revert w.
  induction others as [|g' others IH]; intros w; [reflexivity|].
  cbn [map serve_all fold_left serve].
  change (files (serve_all rt (map GetGame others) (snd (get_game rt g' w)))
          = files w).
  by rewrite IH, get_game_files.
Qed.

(** X11. What the directory holds after a sequence of requests is decided
    by its generation requests alone: leaving the retrievals out changes
    nothing. *)
Theorem retrievals_leave_no_mark rs w :
  files (serve_all rt rs w)
  = files (serve_all rt (List.filter is_post rs) w).
Proof.
  assert (H : forall rs w1 w2, files w1 = files w2 ->
            files (serve_all rt rs w1)
            = files (serve_all rt (List.filter is_post rs) w2)).
  { clear rs w. induction rs as [|r rs IH]; intros w1 w2 E; [exact E|].
    destruct r as [gemini entropy body_prompt|g]; cbn [List.filter is_post].
    - apply (IH (serve rt (PostGenerate gemini entropy body_prompt) w1)
                (serve rt (PostGenerate gemini entropy body_prompt) w2)).
      cbn [serve]. by apply post_api_generate_same_files.
    - apply (IH (serve rt (GetGame g) w1) w2).
      cbn [serve]. by rewrite get_game_files. }
  by apply H.
Qed.

(** X12. A body handed out by [get_game] holds no carriage return. *)
Theorem retrieved_body_has_no_carriage_return g w body :
  fst (get_game rt g w) = Return body -> Forall (fun c => c <> 13%N) body.
Proof.
  destruct (uuid_UUID (unicode_todecimal rt) g) as [n|] eqn:Hp.
  - destruct (fits_NAME_MAX (g ++ lit ".html")) eqn:Hn.
    + destruct (files w !! (g ++ lit ".html")) as [doc|] eqn:Hf.
      * rewrite (get_game_found rt g n doc w Hp Hn Hf). intros [= <-].
        by eapply universal_newlines_no_cr_le.
      * by rewrite (get_game_missing rt g n w Hp Hn Hf).
    + by rewrite (get_game_too_long rt g n w Hp Hn).
  - by rewrite (get_game_malformed rt g w Hp).
Qed.

(** X13. Every file the directory holds after a sequence of requests from
    the empty store can be retrieved: its name is an identifier followed by
    [.html], and [get_game] answers that identifier with the document. *)
Theorem stored_games_are_retrievable rs name doc :
  files (serve_all rt rs empty_world) !! name = Some doc ->
  exists id,
    name = id ++ lit ".html"
    /\ fst (get_game rt id (serve_all rt rs empty_world))
       = Return (as_read rt doc).
Proof.
  intros Hf.
  destruct (reachable_names_ok rt rs _ _ Hf) as [entropy ->].
  exists (UUID_str (uuid4 entropy)). split; [reflexivity|].
  erewrite get_game_canonical; [reflexivity| |exact Hf].
  apply uuid4_range.
Qed.

Lemma generation_calls_app t1 t2 :
  generation_calls (t1 ++ t2) = generation_calls t1 + generation_calls t2.
Proof.
  induction t1 as [|e t1 IH]; [reflexivity|]. destruct e; simpl; by rewrite IH.
Qed.

Lemma serve_generation_calls r w :
  generation_calls (trace (serve rt r w))
  = generation_calls (trace w) + (if accepted r then 1 else 0).
Proof.
  destruct r as [gemini entropy body_prompt|g]; cbn [serve accepted].
  - unfold post_api_generate.
    destruct (GameRequest_validate body_prompt) as [request|];
      [|cbn [snd raise]; lia].
    rewrite generate_game_outcome. cbv zeta.
    destruct (gemini (instruction_of request)) as [e|text].
    + cbn [snd trace emit]. by rewrite generation_calls_app.
    + destruct (valid_html rt (html_content text));
        [destruct (forallb encodable (html_content text))|];
        cbn [snd trace emit]; rewrite !generation_calls_app; simpl; lia.
  - destruct (uuid_UUID (unicode_todecimal rt) g) as [n|] eqn:Hp.
    + destruct (fits_NAME_MAX (g ++ lit ".html")) eqn:Hn.
      * destruct (files w !! (g ++ lit ".html")) as [doc|] eqn:Hf.
        -- rewrite (get_game_found rt g n doc w Hp Hn Hf).
           cbn [snd trace emit]. rewrite !generation_calls_app. simpl. lia.
        -- rewrite (get_game_missing rt g n w Hp Hn Hf).
           cbn [snd trace emit]. rewrite !generation_calls_app. simpl. lia.
      * rewrite (get_game_too_long rt g n w Hp Hn). cbn [snd trace emit].
        rewrite !generation_calls_app. simpl. lia.
    + rewrite (get_game_malformed rt g w Hp). cbn [snd]. lia.
Qed.

(** X14. The generation client is called once for every generation request
    whose body passes validation, whatever the outcome, and never
    otherwise: not for a rejected body, not for a retrieval, and not a
    second time after a failure. *)
Theorem one_generation_call_per_accepted_request rs w :
  generation_calls (trace (serve_all rt rs w))
  = generation_calls (trace w) + length (List.filter accepted rs).
Proof.
  revert w. induction rs as [|r rs IH]; intros w; [simpl; lia|].
  cbn [serve_all fold_left].
  change (generation_calls (trace (serve_all rt rs (serve rt r w)))
          = generation_calls (trace w) + length (List.filter accepted (r :: rs))).
  rewrite IH, serve_generation_calls. cbn [List.filter].
  destruct (accepted r); simpl; lia.
Qed.

Lemma serve_size r w :
  size (files (serve rt r w))
  <= size (files w) + (if accepted r then 1 else 0).
Proof.
  destruct r as [gemini entropy body_prompt|g]; cbn [serve accepted].
  - unfold post_api_generate.
    destruct (GameRequest_validate body_prompt) as [request|];
      [|cbn [snd raise]; lia].
    rewrite generate_game_outcome. cbv zeta.
    destruct (gemini (instruction_of request)) as [e|text];
      [cbn [snd files emit]; lia|].
    destruct (valid_html rt (html_content text)); cbn [snd files emit];
      [|lia].
    destruct (forallb encodable (html_content text)); cbn [snd files];
      rewrite map_size_insert; destruct (files w !! _); unfold id; lia.
  - rewrite get_game_files. lia.
Qed.

(** X15. The directory never holds more files than generation requests
    were accepted since it was empty. *)
Theorem store_size_bound rs :
  size (files (serve_all rt rs empty_world)) <= length (List.filter accepted rs).
Proof.
  assert (H : forall rs w,
            size (files (serve_all rt rs w))
            <= size (files w) + length (List.filter accepted rs)).
  { clear rs. induction rs as [|r rs IH]; intros w; [simpl; lia|].
    cbn [serve_all fold_left].
    change (size (files (serve_all rt rs (serve rt r w)))
            <= size (files w) + length (List.filter accepted (r :: rs))).
    pose proof (IH (serve rt r w)) as H1. pose proof (serve_size r w) as H2.
    cbn [List.filter]. destruct (accepted r); simpl in *; lia. }
  pose proof (H rs empty_world) as H0.
  cbn [files empty_world] in H0. rewrite map_size_empty in H0. lia.
Qed.

End MoreRetrieval.

(** ** What an accepted identifier can hold *)

Lemma scan_hex_consumed (s : str) p acc v rest :
  scan_hex s p acc = Some (v, rest) ->
  exists pre, s = pre ++ rest /\ Forall (fun c => int_char c = true) pre.
Proof.
  revert p acc. induction s as [|c s IH]; intros p acc; simpl.
  - destruct p; [discriminate|]. intros [= <- <-]. by exists [].
  - destruct (digit_value c <? 16)%N eqn:Hd.
    + intros H. destruct (IH _ _ H) as (pre & -> & Hpre).
      exists (c :: pre). split; [reflexivity|]. constructor; [|exact Hpre].
      unfold int_char. rewrite Hd. by rewrite !orb_true_r.
    + destruct (c =? 95)%N eqn:Hu.
      * destruct p; [discriminate|]. intros H.
        destruct (IH _ _ H) as (pre & -> & Hpre).
        exists (c :: pre). split; [reflexivity|]. constructor; [|exact Hpre].
        unfold int_char. rewrite Hu. by rewrite !orb_true_r.
      * destruct p; [discriminate|]. intros [= <- <-]. by exists [].
Qed.

Lemma lstrip_by_split f (s : str) :
  exists ws, s = ws ++ lstrip_by f s /\ Forall (fun c => f c = true) ws.
Proof.
  induction s as [|c s (ws & E & Hws)]; simpl; [by exists []|].
  destruct (f c) eqn:Hc.
  - exists (c :: ws). split; [by rewrite E at 1|by constructor].
  - by exists [].
Qed.

Lemma lstrip_by_nil f (s : str) :
  lstrip_by f s = [] -> Forall (fun c => f c = true) s.
Proof.
  intros E. destruct (lstrip_by_split f s) as (ws & Hs & Hws).
  rewrite E, app_nil_r in Hs. by subst.
Qed.

Lemma space_int_char (s : str) :
  Forall (fun c => Py_ISSPACE c = true) s ->
  Forall (fun c => int_char c = true) s.
Proof.
  intros H. eapply Forall_impl; [exact H|]. intros c Hc.
  unfold int_char. by rewrite Hc.
Qed.

Lemma PyLong_FromString_chars (s : str) v :
  PyLong_FromString s = Some v -> Forall (fun c => int_char c = true) s.
Proof.
  unfold PyLong_FromString.
  destruct (lstrip_by_split Py_ISSPACE s) as (ws & Hs & Hws).
  rewrite Hs at 2. apply space_int_char in Hws.
  generalize (lstrip_by Py_ISSPACE s). clear Hs s. intros s1.
  assert (Hsign : exists sg sign s2,
            s1 = sg ++ s2 /\ Forall (fun c => int_char c = true) sg
            /\ match s1 with
               | c :: r =>
                   if (c =? 43)%N then (1%Z, r)
                   else if (c =? 45)%N then ((-1)%Z, r) else (1%Z, s1)
               | [] => (1%Z, s1)
               end = (sign, s2)).
  { destruct s1 as [|c r]; [by exists [], 1%Z, []|].
    destruct (c =? 43)%N eqn:E1; [|destruct (c =? 45)%N eqn:E2].
    - exists [c], 1%Z, r. repeat split. repeat constructor.
      unfold int_char. rewrite E1. by rewrite !orb_true_r.
    - exists [c], (-1)%Z, r. repeat split. repeat constructor.
      unfold int_char. rewrite E2. by rewrite !orb_true_r.
    - by exists [], 1%Z, (c :: r). }
  destruct Hsign as (sg & sign & s2 & -> & Hsg & ->).
  assert (Hpre : exists pf s3,
            s2 = pf ++ s3 /\ Forall (fun c => int_char c = true) pf
            /\ match s2 with
               | c :: x :: r =>
                   if (c =? 48)%N && ((x =? 120) || (x =? 88))%N
                   then match r with
                        | u :: r' => if (u =? 95)%N then r' else r
                        | [] => r
                        end
                   else s2
               | _ => s2
               end = s3).
  { destruct s2 as [|c [|x r]]; [by exists [], [] | by exists [], [c] |].
    destruct ((c =? 48)%N && ((x =? 120) || (x =? 88))%N) eqn:E;
      [|by exists [], (c :: x :: r)].
    apply andb_prop in E as [Ec Ex].
    assert (Hc : int_char c = true).
    { apply N.eqb_eq in Ec as ->. reflexivity. }
    assert (Hx : int_char x = true).
    { unfold int_char. apply orb_prop in Ex as [-> | ->];
        by rewrite !orb_true_r. }
    destruct r as [|u r']; [exists [c; x], []; by repeat constructor|].
    destruct (u =? 95)%N eqn:Eu.
    - exists [c; x; u], r'. repeat split. repeat constructor; try done.
      unfold int_char. rewrite Eu. by rewrite !orb_true_r.
    - exists [c; x], (u :: r'). by repeat constructor. }
  destruct Hpre as (pf & s3 & -> & Hpf & ->).
  destruct (startswith [95%N] s3); [discriminate|].
  destruct (scan_hex s3 false 0) as [[v' rest]|] eqn:Hscan; [|discriminate].
  destruct (scan_hex_consumed _ _ _ _ _ Hscan) as (pre & -> & Hdig).
  destruct (length rest =? length (pre ++ rest))%nat; [discriminate|].
  destruct (lstrip_by Py_ISSPACE rest) eqn:Hrest; [|discriminate].
  intros _. apply lstrip_by_nil, space_int_char in Hrest.
  by repeat (apply Forall_app; split).
Qed.

Lemma transform_chars todecimal (s : str) :
  Forall (fun c => int_char c = true) (transform_decimal_and_space todecimal s) ->
  Forall (fun c => (c <? 127)%N = true -> int_char c = true) s.
Proof.
  induction s as [|c s IH]; [constructor|].
  cbn [transform_decimal_and_space].
  destruct (c <? 127)%N eqn:Hc.
  - intros H. apply Forall_cons in H as [H1 H2]. constructor; auto.
  - destruct (isspace c).
    + intros H. apply Forall_cons in H as [H1 H2].
      constructor; [congruence|auto].
    + destruct (todecimal c).
      * intros H. apply Forall_cons in H as [H1 H2].
        constructor; [congruence|auto].
      * intros H. apply Forall_cons in H as [H1 _]. discriminate.
Qed.

Lemma int16_chars todecimal (s : str) v :
  int16 todecimal s = Some v ->
  Forall (fun c => (c <? 127)%N = true -> int_char c = true) s.
Proof.
  unfold int16. destruct (forallb _ s); intros H;
    apply PyLong_FromString_chars in H.
  - eapply Forall_impl; [exact H|]. auto.
  - by apply transform_chars in H.
Qed.

Lemma delete_from_keeps (old : str) x (s : str) k :
  k <= length old -> old <> [] ->
  startswith (drop (length old - k) old) s = true ->
  x ∈ s -> x ∈ delete_from old k s \/ x ∈ old.
Proof.
  intros Hk Hold. revert k Hk. induction s as [|c s IH]; intros k Hk Hpre Hx.
  - by apply elem_of_nil in Hx.
  - destruct k as [|k]; cbn [delete_from].
    + destruct (startswith old (c :: s)) eqn:Hm.
      * destruct old as [|a old']; [done|]. cbn [startswith] in Hm.
        apply andb_prop in Hm as [Ha Hm]. apply N.eqb_eq in Ha as ->.
        apply elem_of_cons in Hx as [-> | Hx]; [right; by left|].
        apply IH; [simpl; lia| |exact Hx].
        cbn [length]. by replace (S (length old') - (S (length old') - 1)) with 1
          by lia.
      * apply elem_of_cons in Hx as [-> | Hx]; [left; by left|].
        destruct (IH 0) as [H|H]; [lia| |exact Hx| |]; try by right.
        -- rewrite Nat.sub_0_r, drop_all. reflexivity.
        -- left. by right.
    + destruct (lookup_lt_is_Some_2 old (length old - S k)) as [a Ha]; [lia|].
      rewrite (drop_S _ _ _ Ha) in Hpre. cbn [startswith] in Hpre.
      apply andb_prop in Hpre as [Hc Hpre]. apply N.eqb_eq in Hc as <-.
      apply elem_of_cons in Hx as [-> | Hx].
      * right. by eapply list_elem_of_lookup_2.
      * apply IH; [lia| |exact Hx].
        by replace (length old - k) with (S (length old - S k)) by lia.
Qed.

Lemma replace_empty_keeps (old : str) x (s : str) :
  old <> [] -> x ∈ s -> x ∈ replace_empty old s \/ x ∈ old.
Proof.
  intros Hold. apply delete_from_keeps; [lia|exact Hold|].
  by rewrite Nat.sub_0_r, drop_all.
Qed.

Lemma lstrip_by_keeps f x (s : str) :
  x ∈ s -> x ∈ lstrip_by f s \/ f x = true.
Proof.
  induction s as [|c s IH]; [intros H; by apply elem_of_nil in H|].
  simpl. destruct (f c) eqn:Hc; [|by left].
  intros [-> | H]%elem_of_cons; [by right|auto].
Qed.

Lemma rstrip_by_keeps f x (s : str) :
  x ∈ s -> x ∈ rstrip_by f s \/ f x = true.
Proof.
  induction s as [|c s IH]; [intros H; by apply elem_of_nil in H|].
  simpl. intros [-> | H]%elem_of_cons.
  - destruct (rstrip_by f s); [|left; by left].
    destruct (f c) eqn:Hc; [by right|left; by left].
  - destruct (IH H) as [Hin|]; [|by right].
    destruct (rstrip_by f s); [by apply elem_of_nil in Hin|left; by right].
Qed.

Lemma strip_by_keeps f x (s : str) :
  x ∈ s -> x ∈ strip_by f s \/ f x = true.
Proof.
  intros H. unfold strip_by.
  destruct (lstrip_by_keeps f x s H) as [H1|]; [|by right].
  by apply rstrip_by_keeps.
Qed.

Lemma int16_chars_ascii todecimal (s : str) v :
  todecimal 127%N = None ->
  int16 todecimal s = Some v ->
  Forall (fun c => (c <? 128)%N = true -> int_char c = true) s.
Proof.
  intros Hdel. unfold int16. destruct (forallb _ s); intros H;
    apply PyLong_FromString_chars in H.
  - eapply Forall_impl; [exact H|]. auto.
  - revert H. induction s as [|c s IH]; [constructor|].
    cbn [transform_decimal_and_space].
    destruct (c <? 127)%N eqn:Hc.
    + intros H. apply Forall_cons in H as [H1 H2]. constructor; auto.
    + destruct (isspace c) eqn:Hs.
      * intros H. apply Forall_cons in H as [H1 H2]. constructor; [|auto].
        intros Hc'. assert (c = 127%N) as -> by (apply N.ltb_ge in Hc;
          apply N.ltb_lt in Hc'; lia). discriminate.
      * destruct (todecimal c) eqn:Hd.
        -- intros H. apply Forall_cons in H as [H1 H2]. constructor; [|auto].
           intros Hc'. assert (c = 127%N) as -> by (apply N.ltb_ge in Hc;
             apply N.ltb_lt in Hc'; lia). congruence.
        -- intros H. apply Forall_cons in H as [H1 _]. discriminate.
Qed.

Lemma accepted_id_kept todecimal (Q : N -> Prop) (g : str) n :
  uuid_UUID todecimal g = Some n ->
  (forall (h : str) v, int16 todecimal h = Some v ->
                       Forall (fun c => Q c -> int_char c = true) h) ->
  Forall (fun c => Q c -> id_char c = true) g.
Proof.
  intros H Hint. unfold uuid_UUID in H.
  set (h1 := replace_empty (lit "urn:") g) in *.
  set (h2 := replace_empty (lit "uuid:") h1) in *.
  set (h3 := strip_chars (lit "{}") h2) in *.
  set (h4 := replace_empty (lit "-") h3) in *.
  destruct (negb (length h4 =? 32)); [discriminate|].
  destruct (int16 todecimal h4) as [i|] eqn:Hi; [|discriminate].
  apply Hint in Hi. rewrite Forall_forall in Hi.
  apply Forall_forall. intros x Hx HQ. unfold id_char.
  destruct (replace_empty_keeps (lit "urn:") x g) as [H1|H1]; [done|exact Hx| |].
  2:{ change (lit "urn:") with [117%N; 114%N; 110%N; 58%N] in H1.
      repeat (apply elem_of_cons in H1 as [-> | H1]; [reflexivity|]).
      by apply elem_of_nil in H1. }
  destruct (replace_empty_keeps (lit "uuid:") x h1) as [H2|H2];
    [done|exact H1| |].
  2:{ change (lit "uuid:") with [117%N; 117%N; 105%N; 100%N; 58%N] in H2.
      repeat (apply elem_of_cons in H2 as [-> | H2]; [reflexivity|]).
      by apply elem_of_nil in H2. }
  destruct (strip_by_keeps (fun c => existsb (N.eqb c) (lit "{}")) x h2 H2)
    as [H3|H3].
  2:{ change (lit "{}") with [123%N; 125%N] in H3. cbn [existsb] in H3.
      apply orb_prop in H3 as [H3|H3];
        [|apply orb_prop in H3 as [H3|H3]; [|discriminate]];
        apply N.eqb_eq in H3 as ->; reflexivity. }
  destruct (replace_empty_keeps (lit "-") x h3) as [H4|H4]; [done|exact H3| |].
  2:{ change (lit "-") with [45%N] in H4.
      repeat (apply elem_of_cons in H4 as [-> | H4]; [reflexivity|]).
      by apply elem_of_nil in H4. }
  apply orb_true_intro. left. by apply Hi.
Qed.

(** X17. An identifier that passes the shape check of [get_game] holds,
    among the code points below 127, only those of a base-16 integer and
    those [uuid.UUID] removes ([urn:], [uuid:], braces, hyphens); the same
    goes for 127, and so for all of ASCII, when the interpreter gives it no
    decimal value, as Unicode does.  It holds no slash, backslash, dot or
    NUL, so [<game_id>.html] names a file directly inside the games
    directory. *)
Theorem accepted_id_code_points todecimal (g : str) n :
  uuid_UUID todecimal g = Some n ->
  Forall (fun c => (c <? 127)%N = true -> id_char c = true) g
  /\ (todecimal 127%N = None ->
      Forall (fun c => (c <? 128)%N = true -> id_char c = true) g)
  /\ Forall (fun c => c <> 0%N /\ c <> 46%N /\ c <> 47%N /\ c <> 92%N) g.
Proof.
  intros H.
  assert (Hid : Forall (fun c => (c <? 127)%N = true -> id_char c = true) g).
  { apply (accepted_id_kept todecimal _ g n H). intros h v.
    apply int16_chars. }
  split; [exact Hid|]. split.
  - intros Hdel. apply (accepted_id_kept todecimal _ g n H). intros h v.
    by apply int16_chars_ascii.
  - eapply Forall_impl; [exact Hid|]. intros c Hc.
    repeat split; intros ->; by specialize (Hc eq_refl).
Qed.

Lemma accepted_id_code_points_witness :
  Forall (fun c => (c <? 127)%N = true -> id_char c = true)
    (lit "{urn:uuid:12345678-1234-5678-1234-567812345678}")
  /\ (latin1_todecimal 127%N = None ->
      Forall (fun c => (c <? 128)%N = true -> id_char c = true)
        (lit "{urn:uuid:12345678-1234-5678-1234-567812345678}"))
  /\ Forall (fun c => c <> 0%N /\ c <> 46%N /\ c <> 47%N /\ c <> 92%N)
       (lit "{urn:uuid:12345678-1234-5678-1234-567812345678}").
Proof.
  apply (accepted_id_code_points latin1_todecimal
           (lit "{urn:uuid:12345678-1234-5678-1234-567812345678}")
           24197857161011715162171839636988778104%N).
  reflexivity.
Defined.

(** ** The identifiers [generate_game] issues *)

Lemma hex_digits_lookup k n i :
  i < k ->
  hex_digits k n !! i
  = Some (hexchar ((n / 16 ^ N.of_nat (k - 1 - i)) mod 16)%N).
Proof.
  revert n i. induction k as [|k IH]; intros n i Hi; [lia|].
  cbn [hex_digits]. destruct (decide (i < k)) as [Hlt|Hge].
  - rewrite lookup_app_l by (rewrite hex_digits_length; lia).
    rewrite IH by lia. do 2 f_equal.
    replace (S k - 1 - i) with (S (k - 1 - i)) by lia.
    rewrite Nat2N.inj_succ, N.pow_succ_r', N.Div0.div_div. reflexivity.
  - assert (i = k) as -> by lia.
    rewrite lookup_app_r by (rewrite hex_digits_length; lia).
    rewrite hex_digits_length.
    replace (k - k) with 0 by lia. replace (S k - 1 - k) with 0 by lia.
    cbn [lookup list_lookup N.of_nat]. by rewrite N.pow_0_r, N.div_1_r.
Qed.

Lemma uuid4_testbit entropy j :
  N.testbit (uuid4 entropy) j
  = (((N.testbit (entropy mod 2 ^ 128) j
       && negb (N.testbit (N.shiftl 49152 48) j)
       || N.testbit (N.shiftl 32768 48) j)
      && negb (N.testbit (N.shiftl 61440 64) j))
     || N.testbit (N.shiftl 4 76) j).
Proof.
  unfold uuid4. by rewrite N.lor_spec, N.ldiff_spec, N.lor_spec, N.ldiff_spec.
Qed.

Lemma nibble_bits n k :
  forall i, N.testbit ((n / 2 ^ k) mod 16) i
            = N.testbit n (i + k) && (i <? 4)%N.
Proof.
  intros i. change 16%N with (2 ^ 4)%N.
  rewrite <- N.land_ones, <- N.shiftr_div_pow2, N.land_spec, N.shiftr_spec'.
  f_equal. destruct (N.ltb_spec i 4).
  - by apply N.ones_spec_low.
  - by apply N.ones_spec_high.
Qed.

Lemma nibble_of_bits v (b0 b1 b2 b3 : bool) :
  (forall i, N.testbit v i
             = (if (i =? 0)%N then b0 else if (i =? 1)%N then b1
                else if (i =? 2)%N then b2 else if (i =? 3)%N then b3
                else false)) ->
  v = ((if b0 then 1 else 0) + (if b1 then 2 else 0)
       + (if b2 then 4 else 0) + (if b3 then 8 else 0))%N.
Proof.
  intros H. apply N.bits_inj. intros i. rewrite H.
  destruct (N.eqb_spec i 0) as [->|H0]; [by destruct b0, b1, b2, b3|].
  destruct (N.eqb_spec i 1) as [->|H1]; [by destruct b0, b1, b2, b3|].
  destruct (N.eqb_spec i 2) as [->|H2]; [by destruct b0, b1, b2, b3|].
  destruct (N.eqb_spec i 3) as [->|H3]; [by destruct b0, b1, b2, b3|].
  symmetry. apply N.bits_above_log2.
  apply N.lt_le_trans with 4%N; [|lia].
  by destruct b0, b1, b2, b3.
Qed.

Lemma uuid4_version_nibble entropy : ((uuid4 entropy / 2 ^ 76) mod 16 = 4)%N.
Proof.
  apply (nibble_of_bits _ false false true false). intros i.
  rewrite nibble_bits, uuid4_testbit.
  destruct (N.eqb_spec i 0) as [->|H0];
    [generalize (N.testbit (entropy mod 2 ^ 128) (0 + 76)); by intros []|].
  destruct (N.eqb_spec i 1) as [->|H1];
    [generalize (N.testbit (entropy mod 2 ^ 128) (1 + 76)); by intros []|].
  destruct (N.eqb_spec i 2) as [->|H2];
    [generalize (N.testbit (entropy mod 2 ^ 128) (2 + 76)); by intros []|].
  destruct (N.eqb_spec i 3) as [->|H3];
    [generalize (N.testbit (entropy mod 2 ^ 128) (3 + 76)); by intros []|].
  assert ((i <? 4)%N = false) as -> by (apply N.ltb_ge; lia).
  apply andb_false_r.
Qed.

Lemma uuid4_variant_nibble entropy :
  (8 <= (uuid4 entropy / 2 ^ 60) mod 16 < 12)%N.
Proof.
  set (m := (entropy mod 2 ^ 128)%N).
  assert (E : ((uuid4 entropy / 2 ^ 60) mod 16
               = (if N.testbit m 60 then 1 else 0)
                 + (if N.testbit m 61 then 2 else 0)
                 + (if false then 4 else 0) + (if true then 8 else 0))%N).
  { apply (nibble_of_bits _ (N.testbit m 60) (N.testbit m 61) false true).
    intros i. rewrite nibble_bits, uuid4_testbit.
    fold m.
    destruct (N.eqb_spec i 0) as [->|H0];
      [change (0 + 60)%N with 60%N; by destruct (N.testbit m 60)|].
    destruct (N.eqb_spec i 1) as [->|H1];
      [change (1 + 60)%N with 61%N; by destruct (N.testbit m 61)|].
    destruct (N.eqb_spec i 2) as [->|H2];
      [generalize (N.testbit m (2 + 60)); by intros []|].
    destruct (N.eqb_spec i 3) as [->|H3];
      [generalize (N.testbit m (3 + 60)); by intros []|].
    assert ((i <? 4)%N = false) as -> by (apply N.ltb_ge; lia).
    apply andb_false_r. }
  rewrite E. destruct (N.testbit m 60), (N.testbit m 61); lia.
Qed.

Lemma grouped_lookup (hex : str) :
  length hex = 32 ->
  let id := take 8 hex ++ lit "-" ++ take 4 (drop 8 hex) ++ lit "-"
              ++ take 4 (drop 12 hex) ++ lit "-" ++ take 4 (drop 16 hex)
              ++ lit "-" ++ drop 20 hex in
  id !! 8 = Some 45%N /\ id !! 13 = Some 45%N /\ id !! 18 = Some 45%N
  /\ id !! 23 = Some 45%N /\ id !! 14 = hex !! 12 /\ id !! 19 = hex !! 16.
Proof.
  intros Hl. do 32 (destruct hex as [|? hex]; [discriminate|]).
  destruct hex; [|discriminate]. by repeat split.
Qed.

(** X18. Every identifier [generate_game] issues is a version-4 UUID in
    canonical form: 36 code points, lower-case hexadecimal digits with
    hyphens after the 8th, 12th, 16th and 20th digit, the digit 4 opening
    the third group and one of 8, 9, a, b opening the fourth, whatever the
    entropy. *)
Theorem issued_identifier_is_version_4 entropy :
  let id := UUID_str (uuid4 entropy) in
  length id = 36
  /\ Forall (fun c => is_uuid_char c = true) id
  /\ id !! 8 = Some 45%N /\ id !! 13 = Some 45%N
  /\ id !! 18 = Some 45%N /\ id !! 23 = Some 45%N
  /\ id !! 14 = Some 52%N
  /\ exists v, id !! 19 = Some v
               /\ (v = 56 \/ v = 57 \/ v = 97 \/ v = 98)%N.
Proof.
  intros id. subst id.
  split; [apply UUID_str_length|]. split; [apply UUID_str_chars|].
  destruct (grouped_lookup (hex_digits 32 (uuid4 entropy))
              (hex_digits_length 32 _)) as (H8 & H13 & H18 & H23 & H14 & H19).
  unfold UUID_str. repeat (split; [assumption|]).
  rewrite H14, H19, !hex_digits_lookup by lia.
  change (16 ^ N.of_nat (32 - 1 - 12))%N with (2 ^ 76)%N.
  change (16 ^ N.of_nat (32 - 1 - 16))%N with (2 ^ 60)%N.
  rewrite uuid4_version_nibble. split; [reflexivity|].
  eexists. split; [reflexivity|].
  pose proof (uuid4_variant_nibble entropy) as Hv.
  set (v := ((uuid4 entropy / 2 ^ 60) mod 16)%N) in *.
  assert (v = 8 \/ v = 9 \/ v = 10 \/ v = 11)%N as [-> | [-> | [-> | ->]]]
    by lia; auto.
Qed.

(** ** The further properties at concrete inputs *)

Lemma generate_game_raises_only_500_witness :
  (is_Exception (wrapped reference_runtime
                   (OtherException (lit "quota exceeded"))) = false
   /\ failing_client (instruction_of (mkGameRequest a_prompt))
      = inl (wrapped reference_runtime (OtherException (lit "quota exceeded"))))
  \/ exists cause,
       is_Exception cause = true
       /\ wrapped reference_runtime (OtherException (lit "quota exceeded"))
          = HTTPException 500
              (lit "Failed to generate game: "
                 ++ str_exn reference_runtime cause)
       /\ (failing_client (instruction_of (mkGameRequest a_prompt)) = inl cause
           \/ cause = HTTPException 500
                        (lit "Generated content is not valid HTML")
           \/ exists text,
                failing_client (instruction_of (mkGameRequest a_prompt))
                = inr text
                /\ cause = UnicodeEncodeError (html_content text)).
Proof.
  apply (generate_game_raises_only_500 reference_runtime failing_client 0
           (mkGameRequest a_prompt) empty_world).
  reflexivity.
Defined.

(** An interrupt of the client is passed on as it is. *)
Example interrupt_passes_through :
  fst (generate_game reference_runtime
         (fun _ => inl (Interrupt (lit "KeyboardInterrupt"))) 0
         (mkGameRequest a_prompt) empty_world)
  = Raise (Interrupt (lit "KeyboardInterrupt")).
Proof. reflexivity. Qed.

Lemma generate_game_writes_one_file_witness :
  exists response w',
    generate_game reference_runtime fenced_client 77 (mkGameRequest a_prompt)
      empty_world = (Return response, w')
    /\ files w' !! (game_id response ++ lit ".html")
       = Some (html_content fenced_document)
    /\ (forall name, name <> game_id response ++ lit ".html" ->
                     files w' !! name = files empty_world !! name)
    /\ trace w' = trace empty_world
                    ++ [Generate (instruction_of (mkGameRequest a_prompt));
                        WriteText (game_id response ++ lit ".html")
                          (html_content fenced_document)].
Proof.
  apply (generate_game_writes_one_file reference_runtime fenced_client 77
           (mkGameRequest a_prompt) fenced_document empty_world);
    [reflexivity | reflexivity | apply forallb_Forall; reflexivity].
Defined.

Lemma serve_all_keeps_names_witness :
  is_Some (files (serve_all reference_runtime
                    [GetGame (lit "not-a-uuid");
                     PostGenerate fenced_client 78 a_prompt;
                     PostGenerate failing_client 77 a_prompt]
                    one_game)
             !! (UUID_str (uuid4 77) ++ lit ".html")).
Proof.
  apply (serve_all_keeps_names reference_runtime).
  exists a_document. by vm_compute.
Defined.

Lemma stored_document_survives_witness :
  files (serve_all reference_runtime
           [PostGenerate fenced_client 78 a_prompt; GetGame (lit "not-a-uuid")]
           one_game)
    !! (UUID_str (uuid4 77) ++ lit ".html") = Some a_document.
Proof.
  apply (stored_document_survives reference_runtime).
  - by vm_compute.
  - intros gemini entropy body_prompt [H|[H|[]]]; [|discriminate].
    injection H as _ <- _. by vm_compute.
Defined.

Lemma same_identifier_overwrites_witness :
  let first := generate_game reference_runtime fenced_client 0
                 (mkGameRequest a_prompt) empty_world in
  let second := generate_game reference_runtime (fun _ => inr a_document)
                  (2 ^ 78) (mkGameRequest a_prompt) (snd first) in
  exists response1 response2,
    fst first = Return response1 /\ fst second = Return response2
    /\ game_id response1 = game_id response2
    /\ fst (get_game reference_runtime (game_id response1) (snd second))
       = Return (as_read reference_runtime (html_content a_document)).
Proof.
  apply (same_identifier_overwrites reference_runtime fenced_client
           (fun _ => inr a_document) 0 (2 ^ 78) (mkGameRequest a_prompt)
           (mkGameRequest a_prompt) fenced_document a_document empty_world);
    try reflexivity; apply forallb_Forall; reflexivity.
Defined.

Lemma distinct_identifiers_independent_witness :
  let first := generate_game reference_runtime fenced_client 77
                 (mkGameRequest a_prompt) empty_world in
  let second := generate_game reference_runtime (fun _ => inr a_document) 78
                  (mkGameRequest a_prompt) (snd first) in
  exists response1 response2,
    fst first = Return response1 /\ fst second = Return response2
    /\ game_id response1 <> game_id response2
    /\ fst (get_game reference_runtime (game_id response1) (snd second))
       = Return (as_read reference_runtime (html_content fenced_document))
    /\ fst (get_game reference_runtime (game_id response2) (snd second))
       = Return (as_read reference_runtime (html_content a_document)).
Proof.
  apply (distinct_identifiers_independent reference_runtime fenced_client
           (fun _ => inr a_document) 77 78 (mkGameRequest a_prompt)
           (mkGameRequest a_prompt) fenced_document a_document empty_world);
    try reflexivity; try (apply forallb_Forall; reflexivity).
  by vm_compute.
Defined.

Lemma retrieved_body_has_no_carriage_return_witness :
  Forall (fun c => c <> 13%N) a_document.
Proof.
  apply (retrieved_body_has_no_carriage_return reference_runtime
           (UUID_str (uuid4 77)) one_game a_document).
  by vm_compute.
Defined.

Lemma stored_games_are_retrievable_witness :
  exists id,
    UUID_str (uuid4 77) ++ lit ".html" = id ++ lit ".html"
    /\ fst (get_game reference_runtime id
              (serve_all reference_runtime
                 [PostGenerate fenced_client 77 a_prompt] empty_world))
       = Return (as_read reference_runtime a_document).
Proof.
  apply (stored_games_are_retrievable reference_runtime
           [PostGenerate fenced_client 77 a_prompt]
           (UUID_str (uuid4 77) ++ lit ".html") a_document).
  by vm_compute.
Defined.

(** ** A write that fails *)

(** X19. When the cleaned text passes the check but holds a code point
    that UTF-8 cannot encode (a lone surrogate), the request ends in a 500
    whose detail wraps the encoding error, the file named after the
    identifier that was drawn is left behind empty, and retrieval by that
    identifier answers with an empty body. *)
Theorem unencodable_text_leaves_empty_game
    (rt : Runtime) gemini entropy request text w :
  gemini (instruction_of request) = inr text ->
  valid_html rt (html_content text) = true ->
  forallb encodable (html_content text) = false ->
  let run := generate_game rt gemini entropy request w in
  fst run
  = Raise (HTTPException 500
             (lit "Failed to generate game: "
                ++ UnicodeEncodeError_str rt (html_content text)))
  /\ files (snd run) !! (UUID_str (uuid4 entropy) ++ lit ".html") = Some []
  /\ fst (get_game rt (UUID_str (uuid4 entropy)) (snd run)) = Return [].
Proof.
  intros Hg Hv He run. subst run.
  rewrite generate_game_outcome, Hg. cbv zeta. rewrite Hv, He.
  cbn [fst snd files]. split; [reflexivity|].
  split; [apply lookup_insert_eq|].
  erewrite get_game_canonical; [|apply uuid4_range|apply lookup_insert_eq].
  cbn [fst]. by destruct (host rt).
Qed.

Lemma unencodable_text_leaves_empty_game_witness :
  let run := generate_game reference_runtime surrogate_client 77
               (mkGameRequest a_prompt) empty_world in
  fst run
  = Raise (HTTPException 500
             (lit "Failed to generate game: "
                ++ UnicodeEncodeError_str reference_runtime
                     (html_content surrogate_document)))
  /\ files (snd run) !! (UUID_str (uuid4 77) ++ lit ".html") = Some []
  /\ fst (get_game reference_runtime (UUID_str (uuid4 77)) (snd run))
     = Return [].
Proof.
  apply (unencodable_text_leaves_empty_game reference_runtime surrogate_client
           77 (mkGameRequest a_prompt) surrogate_document empty_world);
    reflexivity.
Defined.
